(** * MakeMeHired backend: the CV rendering and generation pipeline

    A shallow embedding of [src/schemas.py] and [src/main.py] and the
    properties of the template renderer and of the submission handler.

    Python [str] values are sequences of Unicode code points, so a string is
    a [list N]; ASCII literals of the source are written with [u "..."], the
    two non-ASCII characters of the template by their code points. *)

From Stdlib Require Import List NArith ZArith Bool Lia.
From Stdlib Require String Ascii.
Import ListNotations String.StringSyntax.
Delimit Scope string_scope with string.
Bind Scope string_scope with String.string.

Set Implicit Arguments.

(** ** Python strings and the built-ins the program calls *)

Module Py.

Definition char := N.
Definition str := list char.

(** An ASCII literal of the source as a Python string. *)
Fixpoint u (s : String.string) : str :=
  match s with
  | String.EmptyString => []
  | String.String c s' => Ascii.N_of_ascii c :: u s'
  end.

Definition nl : str := [10%N].

(** [str.isspace] on one code point: the characters [str.strip()] removes. *)
Definition isspace (c : char) : bool :=
  ((0x09 <=? c) && (c <=? 0x0D) || (0x1C <=? c) && (c <=? 0x20)
   || (c =? 0x85) || (c =? 0xA0) || (c =? 0x1680)
   || (0x2000 <=? c) && (c <=? 0x200A)
   || (c =? 0x2028) || (c =? 0x2029) || (c =? 0x202F)
   || (c =? 0x205F) || (c =? 0x3000))%N.

Fixpoint lstrip (s : str) : str :=
  match s with
  | [] => []
  | c :: s' => if isspace c then lstrip s' else s
  end.

Definition rstrip (s : str) : str := rev (lstrip (rev s)).

(** [s.strip()] *)
Definition strip (s : str) : str := rstrip (lstrip s).

(** Truth value of a string or of a list: non-empty. *)
Definition truthy {A} (l : list A) : bool :=
  match l with
  | [] => false
  | _ :: _ => true
  end.

(** Truth value of an [Optional[...]] holding a string or a list. *)
Definition truthy_opt {A} (o : option (list A)) : bool :=
  match o with
  | None => false
  | Some l => truthy l
  end.

(** [s.replace(' ', '')]: every U+0020 removed. *)
Definition remove_spaces (s : str) : str :=
  filter (fun c => negb (c =? 0x20)%N) s.

(** ["".join(parts)] *)
Definition join (parts : list str) : str := concat parts.

(** [base64.b64encode(data).decode("utf-8")], bytes as numbers below 256. *)
Definition b64_alphabet : str :=
  u "ABCDEFGHIJKLMNOPQRSTUVWXYZabcdefghijklmnopqrstuvwxyz0123456789+/".

Definition b64_digit (i : N) : char := nth (N.to_nat i) b64_alphabet 0%N.

Definition pad : char := 61%N.

Fixpoint b64encode (data : list N) : str :=
  match data with
  | [] => []
  | [b0] =>
      [b64_digit (N.shiftr b0 2); b64_digit (N.shiftl (N.land b0 3) 4); pad; pad]
  | [b0; b1] =>
      [b64_digit (N.shiftr b0 2);
       b64_digit (N.lor (N.shiftl (N.land b0 3) 4) (N.shiftr b1 4));
       b64_digit (N.shiftl (N.land b1 15) 2); pad]
  | b0 :: b1 :: b2 :: rest =>
      b64_digit (N.shiftr b0 2)
      :: b64_digit (N.lor (N.shiftl (N.land b0 3) 4) (N.shiftr b1 4))
      :: b64_digit (N.lor (N.shiftl (N.land b1 15) 2) (N.shiftr b2 6))
      :: b64_digit (N.land b2 63)
      :: b64encode rest
  end.

End Py.

Import Py.

(** ** schemas.py *)

Record CVExperience := {
  company : str;
  role : str;
  duration : str;
  achievements : list str
}.

Record CVEducation := {
  degree : str;
  institution : str;
  year : str
}.

Record CVProfile := {
  full_name : str;
  email : str;
  phone : str;
  linkedin : option str;
  summary : option str;
  job_title_target : str;
  skills : list str;
  experience : list CVExperience;
  education : list CVEducation;
  certifications : option (list str);
  projects : option (list str);
  languages : option (list str);
  interests : option (list str);
  template : option str
}.

(** ** main.py: the CV generation helpers *)

(** [[s.strip() for s in skills if s and isinstance(s, str)]]; every entry
    of a [List[str]] is a string, so the filter keeps the non-empty ones. *)
Definition skills_to_keywords (skills : list str) : list str :=
  map strip (filter (fun s => truthy s) skills).

Definition em_dash : str := [0x2014%N].
Definition bullet : str := [0x2022%N].

Definition bullet_list (items : option (list str)) : str :=
  if negb (truthy_opt items) then []
  else
    let lis :=
      join (map (fun p => u "<li>" ++ p ++ u "</li>")
                (filter (fun p => truthy p)
                        (match items with Some l => l | None => [] end))) in
    u "<ul>" ++ lis ++ u "</ul>".

(** One turn of the loop over [data.experience]: the text added to
    [exp_html]. *)
Definition exp_item (e : CVExperience) : str :=
  let ach_html := bullet_list (Some (achievements e)) in
  concat [
    nl;
    u "        <div class='exp-item'>"; nl;
    u "            <div class='exp-header'><strong>"; role e;
      u "</strong> | "; company e; u " "; em_dash;
      u " <span class='muted'>"; duration e; u "</span></div>"; nl;
    u "            "; ach_html; nl;
    u "        </div>"; nl;
    u "        "
  ].

(** One turn of the loop over [data.education]. *)
Definition edu_item (ed : CVEducation) : str :=
  concat [
    u "<div class='edu-item'><strong>"; degree ed; u "</strong>, ";
    institution ed; u " "; em_dash; u " <span class='muted'>"; year ed;
    u "</span></div>"
  ].

(** [data.summary or f"Results-driven ..."] *)
Definition summary_text (data : CVProfile) : str :=
  if truthy_opt (summary data)
  then match summary data with Some s => s | None => [] end
  else u "Results-driven " ++ job_title_target data
       ++ u " with experience across key areas and strong focus on measurable impact.".

(** [' • ' + data.linkedin if data.linkedin else ''] *)
Definition linkedin_text (data : CVProfile) : str :=
  if truthy_opt (linkedin data)
  then u " " ++ bullet ++ u " "
       ++ match linkedin data with Some s => s | None => [] end
  else [].

(** [f"<div class='section'><h2>{title}</h2>{x_html}</div>" if x_html else ''] *)
Definition optional_section (title : str) (x_html : str) : str :=
  if truthy x_html
  then u "<div class='section'><h2>" ++ title ++ u "</h2>" ++ x_html ++ u "</div>"
  else [].

Definition render_cv_html (data : CVProfile) : str :=
  let exp_html :=
    fold_left (fun acc e => acc ++ exp_item e) (experience data) [] in
  let edu_html :=
    fold_left (fun acc ed => acc ++ edu_item ed) (education data) [] in
  let certs_html := bullet_list (certifications data) in
  let projects_html := bullet_list (projects data) in
  let languages_html := bullet_list (languages data) in
  let interests_html := bullet_list (interests data) in
  let skills_html :=
    join (map (fun s => u "<span class='tag'>" ++ s ++ u "</span>")
              (skills_to_keywords (skills data))) in
  concat [
    nl;
    u "<!DOCTYPE html>"; nl;
    u "<html>"; nl;
    u "<head>"; nl;
    u "<meta charset='utf-8'>"; nl;
    u "<title>"; full_name data; u " "; em_dash; u " "; job_title_target data;
      u " CV</title>"; nl;
    u "<style>"; nl;
    u "  @page { size: A4; margin: 20mm; }"; nl;
    u "  body { font-family: Arial, Helvetica, sans-serif; color: #111; font-size: 11pt; }"; nl;
    u "  .header { border-bottom: 2px solid #111; padding-bottom: 6px; margin-bottom: 10px; }"; nl;
    u "  .name { font-size: 20pt; font-weight: bold; }"; nl;
    u "  .contact { font-size: 10pt; color: #333; }"; nl;
    u "  h2 { font-size: 12.5pt; margin: 14px 0 6px; padding: 0; }"; nl;
    u "  .section { margin-bottom: 8px; }"; nl;
    u "  .muted { color: #555; }"; nl;
    u "  ul { margin: 4px 0 0 18px; }"; nl;
    u "  li { line-height: 1.35; margin: 2px 0; }"; nl;
    u "  .tag { display: inline-block; border: 1px solid #999; padding: 2px 6px; border-radius: 3px; margin: 2px 6px 0 0; font-size: 9pt; }"; nl;
    u "  .exp-item, .edu-item { margin-bottom: 6px; }"; nl;
    u "</style>"; nl;
    u "</head>"; nl;
    u "<body>"; nl;
    u "  <div class='header'>"; nl;
    u "    <div class='name'>"; full_name data; u "</div>"; nl;
    u "    <div class='contact'>"; nl;
    u "      "; phone data; u " "; bullet; u " "; email data;
      linkedin_text data; nl;
    u "    </div>"; nl;
    u "  </div>"; nl;
    nl;
    u "  <div class='section'>"; nl;
    u "    <h2>Professional Summary</h2>"; nl;
    u "    <p>"; summary_text data; u "</p>"; nl;
    u "  </div>"; nl;
    nl;
    u "  <div class='section'>"; nl;
    u "    <h2>Core Skills</h2>"; nl;
    u "    <div>"; skills_html; u "</div>"; nl;
    u "  </div>"; nl;
    nl;
    u "  <div class='section'>"; nl;
    u "    <h2>Professional Experience</h2>"; nl;
    u "    "; exp_html; nl;
    u "  </div>"; nl;
    nl;
    u "  <div class='section'>"; nl;
    u "    <h2>Education</h2>"; nl;
    u "    "; edu_html; nl;
    u "  </div>"; nl;
    nl;
    u "  "; optional_section (u "Certifications") certs_html; nl;
    u "  "; optional_section (u "Projects / Achievements") projects_html; nl;
    u "  "; optional_section (u "Languages") languages_html; nl;
    u "  "; optional_section (u "Interests") interests_html; nl;
    nl;
    u "</body>"; nl;
    u "</html>"; nl
  ].

(** ** main.py: the submission handler

    The handler talks to two collaborators whose code is outside the
    repository's sources: [create_document] of the database module and
    [pisa.CreatePDF] of xhtml2pdf.  Each either returns or raises; the
    handler is written in a small effect monad that threads the log of the
    calls made, so that what was attempted can be observed. *)

Inductive Exception := Exc (message : str).

Inductive outcome (A : Type) :=
| Returned (a : A)
| Raised (e : Exception).
Arguments Returned {A} a.
Arguments Raised {A} e.

Inductive call :=
| CallCreateDocument (collection : str) (data : CVProfile)
| CallRender (data : CVProfile)
| CallCreatePDF (src : str).

Definition Eff (A : Type) : Type := list call -> list call * outcome A.

Definition ret {A} (a : A) : Eff A := fun log => (log, Returned a).

Definition bind {A B} (m : Eff A) (k : A -> Eff B) : Eff B :=
  fun log =>
    match m log with
    | (log', Returned a) => k a log'
    | (log', Raised e) => (log', Raised e)
    end.

(** A call to a collaborator: logged, then its outcome. *)
Definition perform {A} (c : call) (r : outcome A) : Eff A :=
  fun log => (log ++ [c], r).

(** [try: m  except Exception as e: h e] *)
Definition try_except {A} (m : Eff A) (h : Exception -> Eff A) : Eff A :=
  fun log =>
    match m log with
    | (log', Raised e) => h e log'
    | r => r
    end.

Definition run {A} (m : Eff A) : list call * outcome A := m [].

Notation "x <- m ;; k" := (bind m (fun x => k))
  (at level 61, m at next level, right associativity).

(** The dict [generate_cv] returns. *)
Record response (DocId : Type) := {
  id : option DocId;
  filename : str;
  html : str;
  pdf_base64 : str
}.

Section Handler.

(** What [create_document] returns: the identifier of the stored record. *)
Variable DocId : Type.
Variable create_document : str -> CVProfile -> outcome DocId.
(** [pisa.CreatePDF(src=html, dest=pdf_io)]: the bytes written to [dest]. *)
Variable pisa_CreatePDF : str -> outcome (list N).

(** The [BytesIO] is rewound and read back whole. *)
Definition html_to_pdf_bytes (html : str) : Eff (list N) :=
  perform (CallCreatePDF html) (pisa_CreatePDF html).

Definition generate_cv (profile : CVProfile) : Eff (response DocId) :=
  doc_id <- try_except
              (i <- perform (CallCreateDocument (u "cvprofile") profile)
                            (create_document (u "cvprofile") profile) ;;
               ret (Some i))
              (fun e => ret None) ;;
  html <- perform (CallRender profile) (Returned (render_cv_html profile)) ;;
  pdf_bytes <- html_to_pdf_bytes html ;;
  let pdf_b64 := b64encode pdf_bytes in
  let filename :=
    remove_spaces (full_name profile) ++ u "_"
    ++ remove_spaces (job_title_target profile) ++ u "_MakeMeHiredCV.pdf" in
  ret {| id := doc_id; filename := filename; html := html;
         pdf_base64 := pdf_b64 |}.

End Handler.

(** ** Validation of a submission against the schema

    The validator itself is not code of the repository: pydantic derives it
    from the class declarations of [schemas.py], and FastAPI runs it on the
    request body before [generate_cv] is entered.  It is modelled here from
    the specification's Profile Schema contract, field by field as
    [schemas.py] declares them; what pydantic accepts for a [str] and what
    counts as a well-formed address are left open. *)

#[local] Unset Elimination Schemes.
Inductive json :=
| JNull
| JBool (b : bool)
| JNumber (n : Z)
| JString (s : str)
| JArray (items : list json)
| JObject (members : list (str * json)).
#[local] Set Elimination Schemes.

Fixpoint str_eqb (a b : str) : bool :=
  match a, b with
  | [], [] => true
  | x :: a', y :: b' => (x =? y)%N && str_eqb a' b'
  | _, _ => false
  end.

(** [d.get(key)] on a decoded JSON object. *)
Fixpoint get (key : str) (members : list (str * json)) : option json :=
  match members with
  | [] => None
  | (k, v) :: rest => if str_eqb key k then Some v else get key rest
  end.

Inductive loc_item :=
| Key (name : str)
| Index (i : nat).

Inductive error_kind :=
| Missing
| WrongType
| InvalidEmail.

Record error := {
  loc : list loc_item;
  kind : error_kind
}.

(** The result of validating one value: the errors found, or the value. *)
Definition validated (A : Type) : Type := (list error + A)%type.

(** Applicative combination: the errors of both sides are kept. *)
Definition vap {A B} (f : validated (A -> B)) (x : validated A) : validated B :=
  match f, x with
  | inr g, inr a => inr (g a)
  | inl e1, inl e2 => inl (e1 ++ e2)
  | inl e1, inr _ => inl e1
  | inr _, inl e2 => inl e2
  end.

Notation "f <*> x" := (vap f x) (at level 50, left associativity).

(** The errors of a result; none when it holds a value. *)
Definition errors_of {A} (x : validated A) : list error :=
  match x with
  | inl e => e
  | inr _ => []
  end.

(** A failed validation says why. *)
Definition says_why {A} (x : validated A) : Prop :=
  match x with
  | inl e => e <> []
  | inr _ => True
  end.

(** Every error of [x] lies at or below the place [l] of the input. *)
Definition located_under {A} (l : list loc_item) (x : validated A) : Prop :=
  forall e, In e (errors_of x) -> exists rest, loc e = l ++ rest.

Section Validation.

(** How a [str] field reads a JSON value (which values it accepts depends
    on the pydantic version), and the syntax check and normalisation of
    [EmailStr]. *)
Variable str_value : json -> option str.
Variable email_value : str -> option str.

Definition validator (A : Type) : Type := list loc_item -> json -> validated A.

Definition v_str : validator str :=
  fun l v =>
    match str_value v with
    | Some s => inr s
    | None => inl [{| loc := l; kind := WrongType |}]
    end.

Definition v_email : validator str :=
  fun l v =>
    match str_value v with
    | None => inl [{| loc := l; kind := WrongType |}]
    | Some s =>
        match email_value s with
        | Some e => inr e
        | None => inl [{| loc := l; kind := InvalidEmail |}]
        end
    end.

(** [Optional[X]] *)
Definition v_optional {A} (X : validator A) : validator (option A) :=
  fun l v =>
    match v with
    | JNull => inr None
    | _ => match X l v with
           | inr a => inr (Some a)
           | inl e => inl e
           end
    end.

Fixpoint v_items {A} (X : validator A) (l : list loc_item) (i : nat)
         (items : list json) : validated (list A) :=
  match items with
  | [] => inr []
  | x :: rest => inr cons <*> X (l ++ [Index i]) x <*> v_items X l (S i) rest
  end.

(** [List[X]] *)
Definition v_list {A} (X : validator A) : validator (list A) :=
  fun l v =>
    match v with
    | JArray items => v_items X l 0 items
    | _ => inl [{| loc := l; kind := WrongType |}]
    end.

(** A field declared with [Field(...)]: required. *)
Definition required {A} (l : list loc_item) (m : list (str * json))
           (name : str) (X : validator A) : validated A :=
  match get name m with
  | None => inl [{| loc := l ++ [Key name]; kind := Missing |}]
  | Some v => X (l ++ [Key name]) v
  end.

(** A field declared with a default or a [default_factory]. *)
Definition defaulted {A} (l : list loc_item) (m : list (str * json))
           (name : str) (default : A) (X : validator A) : validated A :=
  match get name m with
  | None => inr default
  | Some v => X (l ++ [Key name]) v
  end.

Definition v_CVExperience : validator CVExperience :=
  fun l v =>
    match v with
    | JObject m =>
        inr Build_CVExperience
        <*> required l m (u "company") v_str
        <*> required l m (u "role") v_str
        <*> required l m (u "duration") v_str
        <*> defaulted l m (u "achievements") [] (v_list v_str)
    | _ => inl [{| loc := l; kind := WrongType |}]
    end.

Definition v_CVEducation : validator CVEducation :=
  fun l v =>
    match v with
    | JObject m =>
        inr Build_CVEducation
        <*> required l m (u "degree") v_str
        <*> required l m (u "institution") v_str
        <*> required l m (u "year") v_str
    | _ => inl [{| loc := l; kind := WrongType |}]
    end.

(** Modelled from the spec: the validator of [CVProfile], which pydantic
    derives from the class declaration in [schemas.py] (required fields,
    types, defaults) and which, by the spec's Profile Schema contract,
    yields a complete profile or the errors of every offending field. *)
Definition validate_CVProfile (body : json) : validated CVProfile :=
  match body with
  | JObject m =>
      inr Build_CVProfile
      <*> required [] m (u "full_name") v_str
      <*> required [] m (u "email") v_email
      <*> required [] m (u "phone") v_str
      <*> defaulted [] m (u "linkedin") None (v_optional v_str)
      <*> defaulted [] m (u "summary") None (v_optional v_str)
      <*> required [] m (u "job_title_target") v_str
      <*> defaulted [] m (u "skills") [] (v_list v_str)
      <*> defaulted [] m (u "experience") [] (v_list v_CVExperience)
      <*> defaulted [] m (u "education") [] (v_list v_CVEducation)
      <*> defaulted [] m (u "certifications") (Some []) (v_optional (v_list v_str))
      <*> defaulted [] m (u "projects") (Some []) (v_optional (v_list v_str))
      <*> defaulted [] m (u "languages") (Some []) (v_optional (v_list v_str))
      <*> defaulted [] m (u "interests") (Some []) (v_optional (v_list v_str))
      <*> defaulted [] m (u "template") (Some (u "modern")) (v_optional v_str)
  | _ => inl [{| loc := []; kind := WrongType |}]
  end.

(** What the validation of each field of the body reports by itself, in
    the order of the declaration. *)
Definition field_checks (m : list (str * json)) : list (str * list error) :=
  [ (u "full_name", errors_of (required [] m (u "full_name") v_str));
    (u "email", errors_of (required [] m (u "email") v_email));
    (u "phone", errors_of (required [] m (u "phone") v_str));
    (u "linkedin", errors_of (defaulted [] m (u "linkedin") None (v_optional v_str)));
    (u "summary", errors_of (defaulted [] m (u "summary") None (v_optional v_str)));
    (u "job_title_target", errors_of (required [] m (u "job_title_target") v_str));
    (u "skills", errors_of (defaulted [] m (u "skills") [] (v_list v_str)));
    (u "experience",
      errors_of (defaulted [] m (u "experience") [] (v_list v_CVExperience)));
    (u "education",
      errors_of (defaulted [] m (u "education") [] (v_list v_CVEducation)));
    (u "certifications",
      errors_of (defaulted [] m (u "certifications") (Some [])
                           (v_optional (v_list v_str))));
    (u "projects",
      errors_of (defaulted [] m (u "projects") (Some [])
                           (v_optional (v_list v_str))));
    (u "languages",
      errors_of (defaulted [] m (u "languages") (Some [])
                           (v_optional (v_list v_str))));
    (u "interests",
      errors_of (defaulted [] m (u "interests") (Some [])
                           (v_optional (v_list v_str))));
    (u "template",
      errors_of (defaulted [] m (u "template") (Some (u "modern"))
                           (v_optional v_str))) ].

Variable DocId : Type.
Variable create_document : str -> CVProfile -> outcome DocId.
Variable pisa_CreatePDF : str -> outcome (list N).

(** Modelled from the spec: the route [POST /api/cv/generate] as FastAPI
    serves it (Submission Handler, step 1): the body is validated first,
    and a body that fails validation is answered with its errors without
    entering [generate_cv]. *)
Definition post_api_cv_generate (body : json)
  : list call * (list error + outcome (response DocId)) :=
  match validate_CVProfile body with
  | inl errs => ([], inl errs)
  | inr profile =>
      let '(log, r) := run (generate_cv create_document pisa_CreatePDF profile) in
      (log, inr r)
  end.

End Validation.

(** ** Vocabulary of the properties *)

(** *** Substrings *)

(** [x] is a substring of [d]. *)
Definition occurs (x d : str) : Prop := exists a b, d = a ++ x ++ b.

(** [x] starts [d]. *)
Definition prefix_of (x d : str) : Prop := exists b, d = x ++ b.

(** [x] ends [d]. *)
Definition suffix_of (x d : str) : Prop := exists a, d = a ++ x.

Fixpoint prefixb (x d : str) : bool :=
  match x, d with
  | [], _ => true
  | c :: x', c' :: d' => (c =? c')%N && prefixb x' d'
  | _ :: _, [] => false
  end.

(** The decision procedure for [occurs]. *)
Fixpoint occursb (x d : str) : bool :=
  prefixb x d || match d with
                 | [] => false
                 | _ :: d' => occursb x d'
                 end.

(** The strings of [xs] occur in [d] one after the other, without overlap. *)
Fixpoint in_order (xs : list str) (d : str) : Prop :=
  match xs with
  | [] => True
  | x :: xs' => exists a b, d = a ++ x ++ b /\ in_order xs' b
  end.

(** What follows the first occurrence of [x] in [d], when there is one. *)
Fixpoint after_first (x d : str) : option str :=
  if prefixb x d then Some (skipn (length x) d)
  else match d with
       | [] => None
       | _ :: d' => after_first x d'
       end.

(** The decision procedure for [in_order]: each string is looked for after
    the first place where the one before it was found. *)
Fixpoint in_orderb (xs : list str) (d : str) : bool :=
  match xs with
  | [] => true
  | x :: xs' =>
      match after_first x d with
      | Some b => in_orderb xs' b
      | None => false
      end
  end.

(** *** The specification's wording, where it is compared with the code *)

(** The keywords as the specification words them: entries that are empty or
    only whitespace are dropped, the others are trimmed. *)
Definition spec_keywords (skills : list str) : list str :=
  map strip (filter (fun s => truthy (strip s)) skills).

(** The file name as the specification words it: name and job title with
    their whitespace removed, then the suffix. *)
Definition remove_whitespace (s : str) : str :=
  filter (fun c => negb (isspace c)) s.

Definition spec_filename (P : CVProfile) : str :=
  remove_whitespace (full_name P) ++ remove_whitespace (job_title_target P)
  ++ u "_MakeMeHiredCV.pdf".

(** The sentence that stands in for a missing summary. *)
Definition fallback_sentence (job_title : str) : str :=
  u "Results-driven " ++ job_title
  ++ u " with experience across key areas and strong focus on measurable impact.".

(** *** Sections, profiles and runs *)

(** The four optional collections with the titles of their sections, in
    the order of the template. *)
Definition optional_collections (P : CVProfile) : list (str * option (list str)) :=
  [ (u "Certifications", certifications P);
    (u "Projects / Achievements", projects P);
    (u "Languages", languages P);
    (u "Interests", interests P) ].

(** The titles of the four optional sections. *)
Definition optional_titles : list str :=
  [ u "Certifications"; u "Projects / Achievements"; u "Languages";
    u "Interests" ].

(** The heading of a section. *)
Definition heading (title : str) : str := u "<h2>" ++ title ++ u "</h2>".

(** Two profiles that agree on every field but [template]. *)
Definition agree_except_template (P1 P2 : CVProfile) : Prop :=
  full_name P1 = full_name P2 /\ email P1 = email P2 /\ phone P1 = phone P2
  /\ linkedin P1 = linkedin P2 /\ summary P1 = summary P2
  /\ job_title_target P1 = job_title_target P2 /\ skills P1 = skills P2
  /\ experience P1 = experience P2 /\ education P1 = education P2
  /\ certifications P1 = certifications P2 /\ projects P1 = projects P2
  /\ languages P1 = languages P2 /\ interests P1 = interests P2.

(** The identifier the handler ends up with: the stored one, or null when
    [create_document] raised. *)
Definition stored_id {DocId} (create_document : str -> CVProfile -> outcome DocId)
           (P : CVProfile) : option DocId :=
  match create_document (u "cvprofile") P with
  | Returned i => Some i
  | Raised _ => None
  end.

(** A validator says why it fails, and where. *)
Definition sound {A} (X : validator A) : Prop :=
  forall l v, says_why (X l v) /\ located_under l (X l v).

(** *** The search for a heading

    The renderer splices the profile's text into the markup as it is, so a
    name that spells a heading puts that heading in the document.  Whether
    the markup holds a heading is decided by reading it from left to
    right. *)

(** One character read by one open occurrence, of which [r] is left: the
    occurrence goes on when the character is the next of [r], and is
    dropped otherwise. *)
Definition advance (c : char) (r : str) : list str :=
  match r with
  | x :: r' => if (x =? c)%N then [r'] else []
  | [] => []
  end.

(** One character read by all the open occurrences, and by the one that may
    begin here. *)
Definition step (pat : str) (st : list str) (c : char) : list str :=
  flat_map (advance c) (pat :: st).

(** An occurrence has been read to its end. *)
Definition found (st : list str) : bool :=
  existsb (fun r => negb (truthy r)) st.

(** The state of the search: what is left to read of every occurrence of
    [pat] that has begun and not failed, and whether one was completed. *)
Definition scan_step (pat : str) (s : list str * bool) (c : char)
  : list str * bool :=
  let st' := step pat (fst s) c in (st', snd s || found st').

Definition scan (pat : str) (s : list str * bool) (d : str) : list str * bool :=
  fold_left (scan_step pat) d s.

(** The non-empty suffixes of [s], [s] first. *)
Fixpoint suffixes (s : str) : list str :=
  match s with
  | [] => []
  | _ :: s' => s :: suffixes s'
  end.

(** What may be left to read of an occurrence of [pat] that has begun. *)
Definition proper_suffixes (pat : str) : list str := suffixes (tl pat).

(** Reading [d] with, at most, the occurrences of [S] open completes none
    and leaves, at most, those of [S'] open. *)
Definition pass (pat : str) (S : list str) (d : str) (S' : list str) : Prop :=
  forall st, incl st S ->
             exists st', scan pat (st, false) d = (st', false) /\ incl st' S'.

(** *** Texts that do not hold a pattern *)

Definition lacks (pat s : str) : bool := negb (occursb pat s).

Definition lacks_opt (pat : str) (o : option str) : bool :=
  match o with
  | Some s => lacks pat s
  | None => true
  end.

Definition lacks_list (pat : str) (l : list str) : bool := forallb (lacks pat) l.

Definition lacks_opt_list (pat : str) (o : option (list str)) : bool :=
  match o with
  | Some l => lacks_list pat l
  | None => true
  end.

Definition lacks_experience (pat : str) (e : CVExperience) : bool :=
  lacks pat (company e) && lacks pat (role e) && lacks pat (duration e)
  && lacks_list pat (achievements e).

Definition lacks_education (pat : str) (ed : CVEducation) : bool :=
  lacks pat (degree ed) && lacks pat (institution ed) && lacks pat (year ed).

(** No text of the profile that the renderer reads holds [pat]. *)
Definition lacks_profile (pat : str) (P : CVProfile) : bool :=
  lacks pat (full_name P) && lacks pat (email P) && lacks pat (phone P)
  && lacks_opt pat (linkedin P) && lacks_opt pat (summary P)
  && lacks pat (job_title_target P) && lacks_list pat (skills P)
  && forallb (lacks_experience pat) (experience P)
  && forallb (lacks_education pat) (education P)
  && lacks_opt_list pat (certifications P) && lacks_opt_list pat (projects P)
  && lacks_opt_list pat (languages P) && lacks_opt_list pat (interests P).

(** ** Sample data *)

Definition jane : CVProfile := {|
  full_name := u "Jane Doe";
  email := u "jane@example.com";
  phone := u "555-1234";
  linkedin := None;
  summary := None;
  job_title_target := u "Backend Engineer";
  skills := [u "Go"; u " Rust "; u ""];
  experience := [];
  education := [];
  certifications := Some [];
  projects := Some [];
  languages := Some [];
  interests := Some [];
  template := Some (u "modern")
|}.

(** The data of [jane], submitted a second time. *)
Definition jane_again : CVProfile := {|
  full_name := u "Jane Doe";
  email := u "jane@example.com";
  phone := u "555-1234";
  linkedin := None;
  summary := None;
  job_title_target := u "Backend Engineer";
  skills := [u "Go"; u " Rust "; u ""];
  experience := [];
  education := [];
  certifications := Some [];
  projects := Some [];
  languages := Some [];
  interests := Some [];
  template := Some (u "modern")
|}.

(** [jane] asking for the classic template. *)
Definition jane_classic : CVProfile := {|
  full_name := full_name jane;
  email := email jane;
  phone := phone jane;
  linkedin := linkedin jane;
  summary := summary jane;
  job_title_target := job_title_target jane;
  skills := skills jane;
  experience := experience jane;
  education := education jane;
  certifications := certifications jane;
  projects := projects jane;
  languages := languages jane;
  interests := interests jane;
  template := Some (u "classic")
|}.

(** [jane] with a skill made of two spaces. *)
Definition jane_blank_skill : CVProfile := {|
  full_name := full_name jane;
  email := email jane;
  phone := phone jane;
  linkedin := linkedin jane;
  summary := summary jane;
  job_title_target := job_title_target jane;
  skills := [u "Go"; u "  "];
  experience := experience jane;
  education := education jane;
  certifications := certifications jane;
  projects := projects jane;
  languages := languages jane;
  interests := interests jane;
  template := template jane
|}.

(** [jane] with a tab (U+0009) in place of the space of her name. *)
Definition jane_tab : CVProfile := {|
  full_name := u "Jane" ++ [0x09%N] ++ u "Doe";
  email := email jane;
  phone := phone jane;
  linkedin := linkedin jane;
  summary := summary jane;
  job_title_target := job_title_target jane;
  skills := skills jane;
  experience := experience jane;
  education := education jane;
  certifications := certifications jane;
  projects := projects jane;
  languages := languages jane;
  interests := interests jane;
  template := template jane
|}.

Definition acme_job : CVExperience := {|
  company := u "Acme";
  role := u "Engineer";
  duration := u "2020";
  achievements := [u ""; u ""]
|}.

(** [jane] with one job, and with achievements and certifications that
    hold nothing but empty strings. *)
Definition jane_blank_lists : CVProfile := {|
  full_name := full_name jane;
  email := email jane;
  phone := phone jane;
  linkedin := linkedin jane;
  summary := summary jane;
  job_title_target := job_title_target jane;
  skills := skills jane;
  experience := [acme_job];
  education := education jane;
  certifications := Some [u ""; u ""];
  projects := projects jane;
  languages := languages jane;
  interests := interests jane;
  template := template jane
|}.

(** [jane] with two interests and nothing else optional. *)
Definition jane_interests : CVProfile := {|
  full_name := full_name jane;
  email := email jane;
  phone := phone jane;
  linkedin := Some (u "https://www.linkedin.com/in/janedoe");
  summary := Some (u "Engineer; <3 small diffs.");
  job_title_target := job_title_target jane;
  skills := skills jane;
  experience := [acme_job];
  education := [ {| degree := u "BSc"; institution := u "MIT"; year := u "2019" |} ];
  certifications := None;
  projects := Some [];
  languages := None;
  interests := Some [u "chess"; u "rowing"];
  template := template jane
|}.

(** A profile whose name spells the heading of the certifications section,
    and which has no certifications. *)
Definition heading_for_a_name : CVProfile := {|
  full_name := u "<h2>Certifications</h2>";
  email := email jane;
  phone := phone jane;
  linkedin := linkedin jane;
  summary := summary jane;
  job_title_target := job_title_target jane;
  skills := skills jane;
  experience := experience jane;
  education := education jane;
  certifications := None;
  projects := projects jane;
  languages := languages jane;
  interests := interests jane;
  template := template jane
|}.

(** A persistence collaborator that stores, and one that is unavailable. *)
Definition db_up (collection : str) (data : CVProfile) : outcome str :=
  Returned (u "64f0c0ffee").

Definition db_down (collection : str) (data : CVProfile) : outcome str :=
  Raised (Exc (u "Database not available")).

(** A converter that returns a fixed document. *)
Definition pdf_stub (src : str) : outcome (list N) :=
  Returned (u "%PDF-1.4").

(** A reading of [str] fields that takes JSON strings only, and a stand-in
    for the syntax check of addresses: an [@] is asked for. *)
Definition json_string_only (v : json) : option str :=
  match v with
  | JString s => Some s
  | _ => None
  end.

Definition has_at_sign (s : str) : option str :=
  if existsb (N.eqb 64) s then Some s else None.

(** A submission without [email], and with a number for the job title. *)
Definition body_without_email : json :=
  JObject [ (u "full_name", JString (u "Jane Doe"));
            (u "phone", JString (u "555-1234"));
            (u "job_title_target", JNumber 7) ].

(** ** main.py: the database check

    [test_database] reads two things from outside: the module-level [db] of
    the database module, which is [None] or a database object, and the
    environment. *)

(** What [test_database] uses of a database object: its [name] attribute
    ([Returned None] when the object has none, [Raised] when reading it
    raises something other than [AttributeError]) and
    [list_collection_names()]. *)
Record Database := {
  name : outcome (option str);
  list_collection_names : outcome (list str)
}.

(** The dict [test_database] builds and returns. *)
Record status := {
  backend : str;
  database : str;
  database_url : option str;
  database_name : option str;
  connection_status : str;
  collections : list str
}.

(** [response[key] = value], key by key. *)
Definition set_database (v : str) (r : status) : status :=
  {| backend := backend r; database := v; database_url := database_url r;
     database_name := database_name r;
     connection_status := connection_status r; collections := collections r |}.

Definition set_database_url (v : option str) (r : status) : status :=
  {| backend := backend r; database := database r; database_url := v;
     database_name := database_name r;
     connection_status := connection_status r; collections := collections r |}.

Definition set_database_name (v : option str) (r : status) : status :=
  {| backend := backend r; database := database r;
     database_url := database_url r; database_name := v;
     connection_status := connection_status r; collections := collections r |}.

Definition set_connection_status (v : str) (r : status) : status :=
  {| backend := backend r; database := database r;
     database_url := database_url r; database_name := database_name r;
     connection_status := v; collections := collections r |}.

Definition set_collections (v : list str) (r : status) : status :=
  {| backend := backend r; database := database r;
     database_url := database_url r; database_name := database_name r;
     connection_status := connection_status r; collections := v |}.

(** [str(e)] *)
Definition str_of_exception (e : Exception) : str :=
  match e with Exc message => message end.

Definition check_mark : str := [0x2705%N].
Definition cross_mark : str := [0x274C%N].
Definition warning_sign : str := [0x26A0%N; 0xFE0F%N].

(** The body of the outer [try]: the dict as the statements left it, and
    the exception that ended them, if one did. *)
Definition test_database_try (db : option Database) (response : status)
  : status * option Exception :=
  match db with
  | Some d =>
      let response := set_database (check_mark ++ u " Available") response in
      let response :=
        set_database_url (Some (check_mark ++ u " Configured")) response in
      match name d with
      | Raised e => (response, Some e)
      | Returned attr =>
          let response :=
            set_database_name
              (Some (match attr with
                     | Some n => n
                     | None => check_mark ++ u " Connected"
                     end))
              response in
          let response := set_connection_status (u "Connected") response in
          match list_collection_names d with
          | Returned collections =>
              let response := set_collections (firstn 10 collections) response in
              let response :=
                set_database (check_mark ++ u " Connected & Working") response in
              (response, None)
          | Raised e =>
              (set_database (warning_sign ++ u "  Connected but Error: "
                             ++ firstn 50 (str_of_exception e))
                            response,
               None)
          end
      end
  | None =>
      (set_database (warning_sign ++ u "  Available but not initialized")
                    response,
       None)
  end.

Definition test_database (db : option Database) (getenv : str -> option str)
  : status :=
  let response :=
    {| backend := check_mark ++ u " Running";
       database := cross_mark ++ u " Not Available";
       database_url := None;
       database_name := None;
       connection_status := u "Not Connected";
       collections := [] |} in
  let response :=
    match test_database_try db response with
    | (response, None) => response
    | (response, Some e) =>
        set_database (cross_mark ++ u " Error: "
                      ++ firstn 50 (str_of_exception e))
                     response
    end in
  let response :=
    set_database_url
      (Some (if truthy_opt (getenv (u "DATABASE_URL"))
             then check_mark ++ u " Set" else cross_mark ++ u " Not Set"))
      response in
  let response :=
    set_database_name
      (Some (if truthy_opt (getenv (u "DATABASE_NAME"))
             then check_mark ++ u " Set" else cross_mark ++ u " Not Set"))
      response in
  response.
(** *** Reading base64 back

    What the receiver of [pdf_base64] does with it: the decoding of RFC 4648,
    on text as [b64encode] writes it (groups of four characters, padding in
    the last group only). *)

Definition is_byte (b : N) : bool := (b <? 256)%N.

(** The place of a character in the alphabet. *)
Definition b64_index (c : char) : option N :=
  if ((65 <=? c) && (c <=? 90))%N then Some (c - 65)%N
  else if ((97 <=? c) && (c <=? 122))%N then Some (c - 71)%N
  else if ((48 <=? c) && (c <=? 57))%N then Some (c + 4)%N
  else if (c =? 43)%N then Some 62%N
  else if (c =? 47)%N then Some 63%N
  else None.

Fixpoint b64decode (s : str) : option (list N) :=
  match s with
  | [] => Some []
  | c1 :: c2 :: c3 :: c4 :: rest =>
      match b64_index c1, b64_index c2 with
      | Some d1, Some d2 =>
          let b0 := N.lor (N.shiftl d1 2) (N.shiftr d2 4) in
          if (c3 =? pad)%N then
            if (c4 =? pad)%N && negb (truthy rest) then Some [b0] else None
          else
            match b64_index c3 with
            | Some d3 =>
                let b1 := N.lor (N.shiftl (N.land d2 15) 4) (N.shiftr d3 2) in
                if (c4 =? pad)%N then
                  if negb (truthy rest) then Some [b0; b1] else None
                else
                  match b64_index c4, b64decode rest with
                  | Some d4, Some tail =>
                      Some (b0 :: b1 :: N.lor (N.shiftl (N.land d3 3) 6) d4 :: tail)
                  | _, _ => None
                  end
            | None => None
            end
      | _, _ => None
      end
  | _ => None
  end.

(** The numbers below [n], for checks by enumeration. *)
Definition below (n : nat) : list N := map N.of_nat (seq 0 n).

(** * Properties *)

Arguments u : simpl never.

(** ** Substrings *)

Lemma prefix_of_here (x b : str) : prefix_of x (x ++ b).
Proof. now exists b. Qed.

Lemma prefix_of_whole (x : str) : prefix_of x x.
Proof. exists []. now rewrite app_nil_r. Qed.

Lemma prefix_of_app (p x d : str) : prefix_of x d -> prefix_of (p ++ x) (p ++ d).
Proof. intros [b ->]. exists b. now rewrite app_assoc. Qed.

Lemma occurs_of_prefix (x d : str) : prefix_of x d -> occurs x d.
Proof. intros [b ->]. now exists [], b. Qed.

Lemma occurs_app_r (x a d : str) : occurs x d -> occurs x (a ++ d).
Proof.
  intros (p & q & ->). exists (a ++ p), q. now rewrite app_assoc.
Qed.

Lemma occurs_app_l (x d b : str) : occurs x d -> occurs x (d ++ b).
Proof.
  intros (p & q & ->). exists p, (q ++ b). now rewrite <- !app_assoc.
Qed.

Lemma prefixb_spec (x d : str) : prefixb x d = true <-> prefix_of x d.
Proof.
  revert d; induction x as [|c x IH]; intros d; simpl.
  - split; [intros _; now exists d | reflexivity].
  - destruct d as [|c' d].
    + split; [discriminate | intros [b Hb]; discriminate].
    + rewrite andb_true_iff, N.eqb_eq, IH. split.
      * intros [-> [b ->]]. now exists b.
      * intros [b Hb]. injection Hb as -> ->. split; [reflexivity | now exists b].
Qed.

Lemma occursb_spec (x d : str) : occursb x d = true <-> occurs x d.
Proof.
  induction d as [|c d IH].
  - simpl. rewrite orb_false_r, prefixb_spec. split.
    + apply occurs_of_prefix.
    + intros (a & b & H). symmetry in H.
      apply app_eq_nil in H as [-> H]. apply app_eq_nil in H as [-> ->].
      apply prefix_of_whole.
  - cbn [occursb]. rewrite orb_true_iff, prefixb_spec, IH. split.
    + intros [H | H]; [now apply occurs_of_prefix | now apply (occurs_app_r [c])].
    + intros ([|c' a] & b & H).
      * left. now exists b.
      * right. injection H as _ ->. now exists a, b.
Qed.

(** Walks down a chain [p1 ++ p2 ++ ...] to the place where [x] starts. *)
Ltac find_prefix :=
  solve [ repeat first [ apply prefix_of_whole
                       | apply prefix_of_here
                       | apply prefix_of_app ] ].

Ltac find_occurrence :=
  cbn [concat];
  repeat first [ apply occurs_of_prefix; find_prefix | apply occurs_app_r ].

(** Walks down a chain to the text a loop of the renderer produced. *)
Ltac skip_to_loop :=
  repeat match goal with
         | |- occurs _ (?h ++ _) =>
             lazymatch h with
             | concat (map _ _) => fail
             | _ => apply occurs_app_r
             end
         end.

(** ** The pieces of the renderer *)

Lemma skills_to_keywords_nonempty_sources (skills : list str) (k : str) :
  In k (skills_to_keywords skills) ->
  exists s, In s skills /\ s <> [] /\ k = strip s.
Proof.
  unfold skills_to_keywords. rewrite in_map_iff.
  intros (s & <- & Hs). apply filter_In in Hs as [Hin Ht].
  exists s. repeat split; trivial. intros ->. discriminate.
Qed.

(** Where no entry is made of whitespace only, the code's keywords are the
    specification's. *)
Lemma skills_to_keywords_meets_spec (skills : list str) :
  (forall s, In s skills -> s <> [] -> strip s <> []) ->
  skills_to_keywords skills = spec_keywords skills.
Proof.
  unfold skills_to_keywords, spec_keywords. intros H. f_equal.
  induction skills as [|s l IH]; simpl; trivial.
  rewrite IH by (intros; apply H; simpl; auto).
  destruct s as [|c s]; simpl; trivial.
  specialize (H (c :: s) (or_introl eq_refl)).
  destruct (strip (c :: s)) eqn:E; simpl; trivial.
  exfalso. now apply H.
Qed.

Lemma summary_text_cases (P : CVProfile) :
  summary_text P
  = match summary P with
    | None | Some [] => fallback_sentence (job_title_target P)
    | Some s => s
    end.
Proof.
  unfold summary_text, fallback_sentence.
  destruct (summary P) as [[|c s]|]; reflexivity.
Qed.

(** ** The handler, run *)

Section HandlerFacts.

Variable DocId : Type.
Variable create_document : str -> CVProfile -> outcome DocId.
Variable pisa_CreatePDF : str -> outcome (list N).

Lemma generate_cv_run (P : CVProfile) :
  run (generate_cv create_document pisa_CreatePDF P)
  = ([CallCreateDocument (u "cvprofile") P; CallRender P;
      CallCreatePDF (render_cv_html P)],
     match pisa_CreatePDF (render_cv_html P) with
     | Returned pdf_bytes =>
         Returned {| id := stored_id create_document P;
                     filename := remove_spaces (full_name P) ++ u "_"
                                 ++ remove_spaces (job_title_target P)
                                 ++ u "_MakeMeHiredCV.pdf";
                     html := render_cv_html P;
                     pdf_base64 := b64encode pdf_bytes |}
     | Raised e => Raised e
     end).
Proof.
  unfold run, generate_cv, html_to_pdf_bytes, bind, try_except, perform, ret,
    stored_id.
  destruct (create_document (u "cvprofile") P);
    destruct (pisa_CreatePDF (render_cv_html P)); reflexivity.
Qed.

End HandlerFacts.

Lemma remove_spaces_no_space (s : str) : ~ In 0x20%N (remove_spaces s).
Proof.
  unfold remove_spaces. intros H. apply filter_In in H as [_ H]. discriminate.
Qed.

(** ** Trimming *)

Lemma lstrip_head (s : str) (c : char) (r : str) :
  lstrip s = c :: r -> isspace c = false.
Proof.
  induction s as [|x s IH]; [discriminate |].
  cbn [lstrip]. destruct (isspace x) eqn:E; [exact IH |].
  now intros [= <- _].
Qed.

Lemma lstrip_is_suffix (s : str) : exists p, s = p ++ lstrip s.
Proof.
  induction s as [|x s [p IH]]; [now exists [] |].
  cbn [lstrip]. destruct (isspace x).
  - exists (x :: p). simpl. now f_equal.
  - now exists [].
Qed.

Lemma strip_is_prefix (s : str) : exists q, lstrip s = strip s ++ q.
Proof.
  unfold strip, rstrip.
  destruct (lstrip_is_suffix (rev (lstrip s))) as [p Hp].
  exists (rev p).
  rewrite <- rev_app_distr, <- Hp. now rewrite rev_involutive.
Qed.

(** What [strip] returns neither begins nor ends with whitespace. *)
Lemma strip_is_trimmed (s : str) :
  (forall c r, strip s = c :: r -> isspace c = false)
  /\ (forall r c, strip s = r ++ [c] -> isspace c = false).
Proof.
  split.
  - intros c r H. destruct (strip_is_prefix s) as [q Hq].
    rewrite H in Hq. exact (lstrip_head _ Hq).
  - intros r c H. unfold strip, rstrip in H.
    apply (f_equal (@rev char)) in H.
    rewrite rev_involutive, rev_app_distr in H. exact (lstrip_head _ H).
Qed.

Lemma lstrip_all_spaces (s : str) :
  forallb isspace s = true -> lstrip s = [].
Proof.
  induction s as [|x s IH]; [trivial |].
  cbn [forallb lstrip]. rewrite andb_true_iff. intros [-> H]. auto.
Qed.

Lemma lstrip_nil_all_spaces (s : str) :
  lstrip s = [] -> forallb isspace s = true.
Proof.
  induction s as [|x s IH]; [trivial |].
  cbn [forallb lstrip]. destruct (isspace x); [exact IH | discriminate].
Qed.

(** [strip] gives the empty string exactly on the strings made of
    whitespace. *)
Lemma strip_nil_iff (s : str) : strip s = [] <-> forallb isspace s = true.
Proof.
  split.
  - intros H. unfold strip, rstrip in H.
    apply (f_equal (@rev char)) in H. rewrite rev_involutive in H. cbn in H.
    apply lstrip_nil_all_spaces in H.
    assert (Hl : forallb isspace (lstrip s) = true).
    { rewrite forallb_forall in *. intros c Hc. apply H. now apply in_rev in Hc. }
    clear H. induction s as [|x s IH]; [trivial |].
    cbn [lstrip forallb] in *. destruct (isspace x) eqn:E; [now apply IH |].
    cbn [forallb] in Hl. now rewrite E in Hl.
  - intros H. unfold strip, rstrip. now rewrite (lstrip_all_spaces _ H).
Qed.

(** The entries that end up as an empty keyword, hence as an empty tag, are
    the non-empty entries made of whitespace. *)
Lemma empty_keyword_iff_blank_entry (skills : list str) :
  In [] (skills_to_keywords skills)
  <-> exists s, In s skills /\ s <> [] /\ forallb isspace s = true.
Proof.
  split.
  - intros H. apply skills_to_keywords_nonempty_sources in H as (s & Hin & Hne & Hs).
    exists s. repeat split; trivial. now apply strip_nil_iff.
  - intros (s & Hin & Hne & Hs). unfold skills_to_keywords.
    apply in_map_iff. exists s. split; [now apply strip_nil_iff |].
    apply filter_In. split; [exact Hin |]. destruct s; [congruence | reflexivity].
Qed.

(** ** The built-ins and the renderer on examples *)

Example strip_trims_both_ends : strip (u "  Rust ") = u "Rust".
Proof. reflexivity. Qed.

Example strip_knows_unicode_spaces :
  strip ([0xA0; 0x2003]%N ++ u "Go" ++ [0x3000; 0x0A]%N) = u "Go".
Proof. reflexivity. Qed.

Example b64encode_pads :
  b64encode (u "Man") = u "TWFu"
  /\ b64encode (u "Ma") = u "TWE="
  /\ b64encode (u "M") = u "TQ=="
  /\ b64encode [] = [].
Proof. repeat split. Qed.

(** The scenario of the specification: Jane Doe, whose skills are Go, Rust
    with a space on either side and the empty string, with no summary, no
    experience, no education and no optional collection. *)
Example scenario_jane_doe :
  occurs (u "<div><span class='tag'>Go</span><span class='tag'>Rust</span></div>")
         (render_cv_html jane)
  /\ occurs (u "<p>Results-driven Backend Engineer with experience across key areas and strong focus on measurable impact.</p>")
            (render_cv_html jane)
  /\ occurs (u "<h2>Professional Experience</h2>" ++ nl ++ u "    " ++ nl
             ++ u "  </div>")
            (render_cv_html jane)
  /\ occurs (u "<h2>Education</h2>" ++ nl ++ u "    " ++ nl ++ u "  </div>")
            (render_cv_html jane)
  /\ occursb (u "<h2>Certifications</h2>") (render_cv_html jane) = false
  /\ occursb (u "<h2>Projects / Achievements</h2>") (render_cv_html jane) = false
  /\ occursb (u "<h2>Languages</h2>") (render_cv_html jane) = false
  /\ occursb (u "<h2>Interests</h2>") (render_cv_html jane) = false
  /\ occursb (u "<ul>") (render_cv_html jane) = false.
Proof.
  repeat split; try (apply occursb_spec); vm_compute; reflexivity.
Qed.

(** The renderer does not escape what it splices in: a name can spell a
    heading, and then the markup holds that heading although the section is
    left out. *)
Example a_name_can_spell_a_heading :
  optional_section (u "Certifications")
                   (bullet_list (certifications heading_for_a_name)) = []
  /\ lacks_profile (heading (u "Certifications")) heading_for_a_name = false
  /\ occurs (u "<h2>Certifications</h2>") (render_cv_html heading_for_a_name).
Proof.
  repeat split. apply occursb_spec. vm_compute. reflexivity.
Qed.

(** ** Skills *)

(** C1 (the code departs from the claim). A skill made only of whitespace is
    not dropped: [skills_to_keywords] tests the entry before trimming it, so
    the entry is kept, trimmed to the empty string and rendered as an empty
    tag in the skills section, where the specification's wording drops it.
    Evaluated on the skills ["Go"; "  "]. *)
Theorem C1_whitespace_only_skill_renders_empty_tag :
  skills_to_keywords [u "Go"; u "  "] = [u "Go"; []]
  /\ spec_keywords [u "Go"; u "  "] = [u "Go"]
  /\ occurs (u "<div><span class='tag'>Go</span><span class='tag'></span></div>")
            (render_cv_html jane_blank_skill).
Proof.
  split; [reflexivity | split; [reflexivity |]].
  apply occursb_spec. vm_compute. reflexivity.
Qed.

(** ** File name *)

(** C2 (counterexample). The file name is not the bare concatenation of name
    and job title with whitespace removed: for Jane Doe the handler puts an
    underscore between the two, and for a name with a tab the tab stays in
    the file name. *)
Lemma C2_counterexample :
  (exists r, snd (run (generate_cv db_up pdf_stub jane)) = Returned r
             /\ filename r = u "JaneDoe_BackendEngineer_MakeMeHiredCV.pdf"
             /\ spec_filename jane = u "JaneDoeBackendEngineer_MakeMeHiredCV.pdf"
             /\ filename r <> spec_filename jane)
  /\ (exists r, snd (run (generate_cv db_up pdf_stub jane_tab)) = Returned r
                /\ In 0x09%N (filename r)
                /\ isspace 0x09%N = true
                /\ filename r <> spec_filename jane_tab).
Proof.
  split; eexists; (split; [reflexivity |]).
  - repeat split; try reflexivity. vm_compute. discriminate.
  - repeat split; try reflexivity.
    + vm_compute. tauto.
    + vm_compute. discriminate.
Qed.

(** C2 (amended). Whenever the converter returns, [generate_cv] returns, and
    its file name is the full name with every space (U+0020) removed, an
    underscore, the target job title with every space removed, and the
    suffix [_MakeMeHiredCV.pdf]; no space occurs before the suffix. *)
Theorem C2_filename_of_generate_cv
        (DocId : Type) (create_document : str -> CVProfile -> outcome DocId)
        (pisa_CreatePDF : str -> outcome (list N))
        (P : CVProfile) (pdf_bytes : list N) :
  pisa_CreatePDF (render_cv_html P) = Returned pdf_bytes ->
  exists r,
    snd (run (generate_cv create_document pisa_CreatePDF P)) = Returned r
    /\ filename r = remove_spaces (full_name P) ++ u "_"
                    ++ remove_spaces (job_title_target P)
                    ++ u "_MakeMeHiredCV.pdf"
    /\ ~ In 0x20%N (remove_spaces (full_name P) ++ u "_"
                    ++ remove_spaces (job_title_target P)).
Proof.
  intros Hpdf. rewrite generate_cv_run, Hpdf. cbn [snd].
  eexists. split; [reflexivity |]. split; [reflexivity |].
  rewrite !in_app_iff. intros [H | [H | H]].
  - now apply remove_spaces_no_space in H.
  - vm_compute in H. destruct H as [H | []]. discriminate.
  - now apply remove_spaces_no_space in H.
Qed.

Lemma C2_filename_witness :
  exists r,
    snd (run (generate_cv db_up pdf_stub jane)) = Returned r
    /\ filename r = u "JaneDoe_BackendEngineer_MakeMeHiredCV.pdf"
    /\ ~ In 0x20%N (u "JaneDoe_BackendEngineer").
Proof.
  exact (@C2_filename_of_generate_cv str db_up pdf_stub jane (u "%PDF-1.4")
                                     eq_refl).
Defined.

(** ** Persistence is best effort *)

(** C3. When [create_document] raises (write refused, or no datastore at
    all), [generate_cv] ends as it does when the write succeeds.  If the
    converter returns, both runs return: the same file name, markup and
    encoded document, with the stored identifier in one and a null
    identifier in the other.  If the converter raises, both runs raise the
    converter's exception.  The exception of the store reaches the caller in
    neither case. *)
Theorem C3_persistence_failure_is_not_fatal
        (DocId : Type) (db_ok db_failing : str -> CVProfile -> outcome DocId)
        (pisa_CreatePDF : str -> outcome (list N))
        (P : CVProfile) (i : DocId) (e : Exception) :
  db_ok (u "cvprofile") P = Returned i ->
  db_failing (u "cvprofile") P = Raised e ->
  let with_store := snd (run (generate_cv db_ok pisa_CreatePDF P)) in
  let without_store := snd (run (generate_cv db_failing pisa_CreatePDF P)) in
  (forall pdf_bytes,
      pisa_CreatePDF (render_cv_html P) = Returned pdf_bytes ->
      exists r_ok r,
        with_store = Returned r_ok /\ without_store = Returned r
        /\ id r_ok = Some i /\ id r = None
        /\ filename r = filename r_ok /\ html r = html r_ok
        /\ pdf_base64 r = pdf_base64 r_ok)
  /\ (forall x,
         pisa_CreatePDF (render_cv_html P) = Raised x ->
         with_store = Raised x /\ without_store = Raised x).
Proof.
  intros Hok Hfail with_store without_store.
  subst with_store without_store. rewrite !generate_cv_run. cbn [snd].
  unfold stored_id. rewrite Hok, Hfail. split.
  - intros pdf_bytes ->. do 2 eexists.
    split; [reflexivity |]. split; [reflexivity |]. cbn. tauto.
  - intros x ->. split; reflexivity.
Qed.

Lemma C3_persistence_failure_witness :
  exists r_ok r,
    snd (run (generate_cv db_up pdf_stub jane)) = Returned r_ok
    /\ snd (run (generate_cv db_down pdf_stub jane)) = Returned r
    /\ id r_ok = Some (u "64f0c0ffee") /\ id r = None
    /\ filename r = filename r_ok /\ html r = html r_ok
    /\ pdf_base64 r = pdf_base64 r_ok.
Proof.
  exact (proj1 (@C3_persistence_failure_is_not_fatal
                  str db_up db_down pdf_stub jane (u "64f0c0ffee")
                  (Exc (u "Database not available")) eq_refl eq_refl)
               (u "%PDF-1.4") eq_refl).
Defined.

(** ** Summary *)

(** C4. The summary section (its heading, then the paragraph) holds the
    fallback sentence built on the target job title when [summary] is null
    or the empty string, and the summary itself otherwise. *)
Theorem C4_summary_or_fallback (P : CVProfile) :
  occurs (u "    <h2>Professional Summary</h2>" ++ nl
          ++ u "    <p>"
          ++ match summary P with
             | None | Some [] =>
                 u "Results-driven " ++ job_title_target P
                 ++ u " with experience across key areas and strong focus on measurable impact."
             | Some s => s
             end
          ++ u "</p>")
         (render_cv_html P).
Proof.
  change (match summary P with
          | None | Some [] => _
          | Some s => s
          end)
    with (match summary P with
          | None | Some [] => fallback_sentence (job_title_target P)
          | Some s => s
          end).
  rewrite <- summary_text_cases.
  unfold render_cv_html. find_occurrence.
Qed.

(** ** Loops and lists of the renderer *)

Lemma fold_left_append {A} (f : A -> str) (l : list A) (init : str) :
  fold_left (fun acc x => acc ++ f x) l init = init ++ concat (map f l).
Proof.
  revert init; induction l as [|x l IH]; intros init; simpl.
  - now rewrite app_nil_r.
  - rewrite IH. now rewrite <- app_assoc.
Qed.

Lemma occurs_in_concat_map {A} (f : A -> str) (l : list A) (x : A) (s : str) :
  In x l -> occurs s (f x) -> occurs s (concat (map f l)).
Proof.
  intros Hin Hs. apply in_split in Hin as (l1 & l2 & ->).
  rewrite map_app, concat_app. apply occurs_app_r. simpl.
  now apply occurs_app_l.
Qed.

Lemma filter_truthy_all_empty (items : list str) :
  (forall p, In p items -> p = []) -> filter (fun p => truthy p) items = [].
Proof.
  induction items as [|p l IH]; intros H; simpl; trivial.
  rewrite (H p (or_introl eq_refl)). simpl. apply IH.
  intros q Hq. apply H. now right.
Qed.

Lemma bullet_list_of_empty_strings (items : list str) :
  items <> [] -> (forall p, In p items -> p = []) ->
  bullet_list (Some items) = u "<ul>" ++ u "</ul>".
Proof.
  intros Hne Hall. unfold bullet_list.
  destruct items as [|p l]; [congruence |].
  cbn [truthy_opt truthy negb]. now rewrite filter_truthy_all_empty.
Qed.

Lemma bullet_list_nothing (items : option (list str)) :
  items = None \/ items = Some [] -> bullet_list items = [].
Proof. intros [-> | ->]; reflexivity. Qed.

(** ** Template selector *)

(** C9. Two profiles that agree on every field except [template] render to
    the same markup. *)
Theorem C9_template_has_no_effect (P1 P2 : CVProfile) :
  agree_except_template P1 P2 -> render_cv_html P1 = render_cv_html P2.
Proof.
  destruct P1, P2. unfold agree_except_template. cbn.
  intros (-> & -> & -> & -> & -> & -> & -> & -> & -> & -> & -> & -> & ->).
  reflexivity.
Qed.

Lemma C9_template_witness :
  template jane <> template jane_classic
  /\ render_cv_html jane = render_cv_html jane_classic.
Proof.
  split; [discriminate |].
  apply C9_template_has_no_effect.
  repeat split.
Defined.

(** ** Determinism *)

(** C8. Equal profiles render to identical markup, and the markup a run of
    [generate_cv] hands back depends on the profile alone: neither the
    datastore nor the converter, the only things the handler reads besides
    the profile, has a say in it. *)
Theorem C8_render_is_deterministic (P1 P2 : CVProfile) :
  P1 = P2 ->
  render_cv_html P1 = render_cv_html P2
  /\ forall (DocId1 DocId2 : Type)
            (db1 : str -> CVProfile -> outcome DocId1)
            (db2 : str -> CVProfile -> outcome DocId2)
            (pdf1 pdf2 : str -> outcome (list N)) (b1 b2 : list N),
      pdf1 (render_cv_html P1) = Returned b1 ->
      pdf2 (render_cv_html P2) = Returned b2 ->
      exists r1 r2,
        snd (run (generate_cv db1 pdf1 P1)) = Returned r1
        /\ snd (run (generate_cv db2 pdf2 P2)) = Returned r2
        /\ html r1 = html r2.
Proof.
  intros <-. split; [reflexivity |].
  intros DocId1 DocId2 db1 db2 pdf1 pdf2 b1 b2 H1 H2.
  rewrite !generate_cv_run, H1, H2. cbn [snd].
  do 2 eexists. split; [reflexivity |]. split; reflexivity.
Qed.

Lemma C8_render_witness : render_cv_html jane = render_cv_html jane_again.
Proof.
  exact (proj1 (C8_render_is_deterministic (P1 := jane) (P2 := jane_again) eq_refl)).
Defined.

(** ** Lists of empty strings *)

(** C10. A bullet-list collection that is not empty but holds only empty
    strings is still rendered: [bullet_list] gives the empty list
    [<ul></ul>], so each of the four optional sections appears with its
    heading around an empty list, and an experience entry carries an empty
    list after its header line.  The test for omission looks at the raw
    sequence; the empty items are filtered later. *)
Theorem C10_blank_items_render_empty_list (P : CVProfile) (items : list str) :
  items <> [] ->
  (forall p, In p items -> p = []) ->
  bullet_list (Some items) = u "<ul></ul>"
  /\ (forall title coll,
        In (title, coll) (optional_collections P) -> coll = Some items ->
        occurs (u "<div class='section'><h2>" ++ title ++ u "</h2>"
                ++ u "<ul></ul>" ++ u "</div>")
               (render_cv_html P))
  /\ (forall e,
        In e (experience P) -> achievements e = items ->
        occurs (u " <span class='muted'>" ++ duration e ++ u "</span></div>" ++ nl
                ++ u "            " ++ u "<ul></ul>" ++ nl
                ++ u "        </div>")
               (render_cv_html P)).
Proof.
  intros Hne Hall.
  pose proof (bullet_list_of_empty_strings Hne Hall) as Hb.
  change (u "<ul>" ++ u "</ul>") with (u "<ul></ul>") in Hb.
  split; [exact Hb | split].
  - intros title coll Hin ->.
    unfold optional_collections in Hin. cbn [In] in Hin.
    destruct Hin as [H | [H | [H | [H | []]]]];
      injection H as <- Hc;
      unfold render_cv_html; rewrite Hc, Hb;
      unfold optional_section; cbn [truthy u]; find_occurrence.
  - intros e Hin He.
    unfold render_cv_html. rewrite fold_left_append. cbn [app].
    cbn [concat]. skip_to_loop. apply occurs_app_l.
    apply occurs_in_concat_map with (x := e); trivial.
    unfold exp_item. rewrite He, Hb. find_occurrence.
Qed.

Lemma C10_blank_items_witness :
  occurs (u "<div class='section'><h2>Certifications</h2><ul></ul></div>")
         (render_cv_html jane_blank_lists)
  /\ occurs (u " <span class='muted'>2020</span></div>" ++ nl
             ++ u "            <ul></ul>" ++ nl ++ u "        </div>")
            (render_cv_html jane_blank_lists).
Proof.
  assert (Hne : [u ""; u ""] <> []) by discriminate.
  assert (Hall : forall p, In p [u ""; u ""] -> p = []).
  { intros p [<- | [<- | []]]; reflexivity. }
  destruct (C10_blank_items_render_empty_list jane_blank_lists Hne Hall)
    as (_ & Hsec & Hexp).
  split.
  - exact (Hsec (u "Certifications") (Some [u ""; u ""])
                (or_introl eq_refl) eq_refl).
  - exact (Hexp acme_job (or_introl eq_refl) eq_refl).
Defined.

(** ** Order of the sections *)

Lemma in_order_skip (xs : list str) (a d : str) :
  in_order xs d -> in_order xs (a ++ d).
Proof.
  destruct xs as [|x xs]; [trivial |].
  intros (p & q & -> & H). exists (a ++ p), q.
  split; [now rewrite app_assoc | exact H].
Qed.

Lemma in_order_take (x : str) (xs : list str) (p d : str) :
  occurs x p -> in_order xs d -> in_order (x :: xs) (p ++ d).
Proof.
  intros (a & b & ->) H. exists a, (b ++ d).
  split; [now rewrite <- !app_assoc | now apply in_order_skip].
Qed.

(** Places the strings of the list on the pieces of a chain, left to right. *)
Ltac place_in_order :=
  cbn [concat];
  repeat first
    [ exact I
    | apply in_order_take;
      [ solve [ apply occurs_of_prefix, prefix_of_whole
              | apply occursb_spec; vm_compute; reflexivity ] | ]
    | apply in_order_skip ].

Lemma skipn_prefix_app (x b : str) : skipn (length x) (x ++ b) = b.
Proof. induction x as [|c x IH]; [reflexivity | exact IH]. Qed.

Lemma after_first_here (x d : str) :
  prefixb x d = true -> after_first x d = Some (skipn (length x) d).
Proof. intros H. destruct d; cbn [after_first]; now rewrite H. Qed.

(** The first occurrence of [x] leaves at least as much behind as any
    other. *)
Lemma after_first_occurrence (x a b : str) :
  exists c, after_first x (a ++ x ++ b) = Some (c ++ b).
Proof.
  induction a as [|y a IH].
  - exists []. cbn [app]. rewrite after_first_here.
    + now rewrite skipn_prefix_app.
    + apply prefixb_spec. now exists b.
  - cbn [app after_first].
    destruct (prefixb x (y :: a ++ x ++ b)) eqn:E; [| exact IH].
    exists (skipn (length x) ((y :: a) ++ x)).
    f_equal. change (y :: a ++ x ++ b) with ((y :: a) ++ x ++ b).
    rewrite app_assoc, skipn_app.
    replace (length x - length ((y :: a) ++ x)) with 0
      by (rewrite length_app; lia).
    reflexivity.
Qed.

Lemma in_orderb_complete (xs : list str) :
  forall d, in_order xs d -> in_orderb xs d = true.
Proof.
  induction xs as [|x xs IH]; intros d H; [reflexivity |].
  destruct H as (a & b & -> & H). cbn [in_orderb].
  destruct (after_first_occurrence x a b) as [c ->].
  apply IH. now apply in_order_skip.
Qed.


Lemma optional_section_present (title : str) (x : str) (l : list str) :
  optional_section title (bullet_list (Some (x :: l)))
  = u "<div class='section'><h2>" ++ title ++ u "</h2>"
    ++ bullet_list (Some (x :: l)) ++ u "</div>".
Proof.
  unfold optional_section, bullet_list. cbn [truthy_opt truthy negb].
  change (u "<ul>") with (60%N :: u "ul>"). reflexivity.
Qed.


(** ** Searching the markup for a heading *)

Lemma scan_app (pat : str) (s : list str * bool) (a b : str) :
  scan pat s (a ++ b) = scan pat (scan pat s a) b.
Proof. apply fold_left_app. Qed.

Lemma scan_cons (pat : str) (s : list str * bool) (c : char) (d : str) :
  scan pat s (c :: d) = scan pat (scan_step pat s c) d.
Proof. reflexivity. Qed.

Lemma scan_hit_stays (pat : str) (d : str) (st : list str) :
  snd (scan pat (st, true) d) = true.
Proof.
  revert st; induction d as [|c d IH]; intros st; [reflexivity |].
  rewrite scan_cons. unfold scan_step. cbn [fst snd orb]. apply IH.
Qed.

Lemma advance_head (c : char) (r : str) : advance c (c :: r) = [r].
Proof. simpl. now rewrite N.eqb_refl. Qed.

Lemma step_keeps (pat : str) (st : list str) (c : char) (r : str) :
  In (c :: r) (pat :: st) -> In r (step pat st c).
Proof.
  intros H. unfold step. apply in_flat_map. exists (c :: r).
  split; [exact H | rewrite advance_head; now left].
Qed.

Lemma scan_completes (pat : str) (r : str) :
  forall st hit, r <> [] -> In r (pat :: st) ->
                 snd (scan pat (st, hit) r) = true.
Proof.
  induction r as [|c r IH]; intros st hit Hne Hin; [congruence |].
  rewrite scan_cons. unfold scan_step. cbn [fst snd].
  pose proof (step_keeps Hin) as Hr.
  destruct r as [|c' r'].
  - assert (Hf : found (step pat st c) = true).
    { unfold found. apply existsb_exists. exists []. split; [exact Hr | reflexivity]. }
    rewrite Hf, orb_true_r. apply scan_hit_stays.
  - apply IH; [discriminate | now right].
Qed.

Lemma scan_occurs (pat d : str) :
  pat <> [] -> occurs pat d -> snd (scan pat ([], false) d) = true.
Proof.
  intros Hne (a & b & ->). rewrite !scan_app.
  destruct (scan pat ([], false) a) as [st hit].
  pose proof (@scan_completes pat pat st hit Hne (or_introl eq_refl)) as H.
  destruct (scan pat (st, hit) pat) as [st' hit']. cbn [snd] in H. subst hit'.
  apply scan_hit_stays.
Qed.

Lemma step_incl (pat : str) (st S : list str) (c : char) :
  incl st S -> incl (step pat st c) (step pat S c).
Proof.
  intros H r Hr. unfold step in *. apply in_flat_map in Hr as (r0 & Hr0 & Hr).
  apply in_flat_map. exists r0. split; [| exact Hr].
  destruct Hr0 as [<- | Hr0]; [now left | right; now apply H].
Qed.

Lemma found_incl (st S : list str) :
  incl st S -> found st = true -> found S = true.
Proof.
  unfold found. rewrite !existsb_exists. intros H (r & Hr & Hn).
  exists r. split; [now apply H | exact Hn].
Qed.

Lemma scan_monotone (pat : str) (d : str) :
  forall st S S',
    incl st S -> scan pat (S, false) d = (S', false) ->
    exists st', scan pat (st, false) d = (st', false) /\ incl st' S'.
Proof.
  induction d as [|c d IH]; intros st S S' Hincl Hscan.
  - cbn in Hscan. injection Hscan as <-. exists st. now split.
  - rewrite scan_cons in *. unfold scan_step in *. cbn [fst snd orb] in *.
    destruct (found (step pat S c)) eqn:EF.
    + pose proof (scan_hit_stays pat d (step pat S c)) as Hh.
      rewrite Hscan in Hh. discriminate.
    + destruct (found (step pat st c)) eqn:Ef.
      * apply (found_incl (@step_incl pat st S c Hincl)) in Ef. congruence.
      * apply (IH _ _ _ (@step_incl pat st S c Hincl) Hscan).
Qed.

Lemma pass_literal (pat : str) (S : list str) (d : str) (S' : list str) :
  scan pat (S, false) d = (S', false) -> pass pat S d S'.
Proof. intros H st Hst. exact (scan_monotone pat d Hst H). Qed.

Lemma pass_nil (pat : str) (S : list str) : pass pat S [] S.
Proof. intros st Hst. exists st. now split. Qed.

Lemma pass_app (pat : str) (S : list str) (a b : str) (S1 S2 : list str) :
  pass pat S a S1 -> pass pat S1 b S2 -> pass pat S (a ++ b) S2.
Proof.
  intros Ha Hb st Hst. destruct (Ha st Hst) as (st1 & H1 & Hi1).
  destruct (Hb st1 Hi1) as (st2 & H2 & Hi2).
  exists st2. split; [| exact Hi2]. now rewrite scan_app, H1.
Qed.

Lemma pass_weaken (pat : str) (S : list str) (d : str) (S1 S2 : list str) :
  pass pat S d S1 -> incl S1 S2 -> pass pat S d S2.
Proof.
  intros H Hi st Hst. destruct (H st Hst) as (st' & Hs & Hi').
  exists st'. split; [exact Hs | now apply incl_tran with S1].
Qed.

Lemma pass_concat_map {A} (pat : str) (S : list str) (f : A -> str) (l : list A) :
  (forall x, In x l -> pass pat S (f x) S) -> pass pat S (concat (map f l)) S.
Proof.
  induction l as [|x l IH]; intros H; [apply pass_nil |].
  cbn [map concat]. apply pass_app with S.
  - apply H. now left.
  - apply IH. intros y Hy. apply H. now right.
Qed.

Lemma pass_no_occurrence (pat : str) (d : str) (S' : list str) :
  pat <> [] -> pass pat [] d S' -> ~ occurs pat d.
Proof.
  intros Hne Hp Ho. destruct (Hp [] (incl_refl _)) as (st' & Hs & _).
  apply scan_occurs in Ho; trivial. rewrite Hs in Ho. discriminate.
Qed.

Lemma found_nil_in (st : list str) : found st = true <-> In [] st.
Proof.
  unfold found. rewrite existsb_exists. split.
  - intros (r & Hr & Hn). destruct r; [exact Hr | discriminate].
  - intros H. now exists [].
Qed.

Lemma advance_in (c : char) (r0 r : str) : In r (advance c r0) -> r0 = c :: r.
Proof.
  destruct r0 as [|x r0]; cbn; [tauto |].
  destruct (N.eqb_spec x c) as [-> | _]; cbn; [| tauto].
  now intros [<- | []].
Qed.

(** What the search holds after [d]: each open occurrence began in [d], and
    a completed one lies in [d]. *)
Lemma scan_sound (pat : str) (d : str) :
  forall st hit,
    scan pat ([], false) d = (st, hit) ->
    (forall r, In r st -> exists a p, d = a ++ p /\ pat = p ++ r /\ p <> [])
    /\ (hit = true -> occurs pat d)
    /\ (found st = true -> hit = true).
Proof.
  induction d as [|c d IH] using rev_ind; intros st hit H.
  - cbn in H. injection H as <- <-. repeat split; try discriminate. intros r [].
  - rewrite scan_app in H. destruct (scan pat ([], false) d) as [st0 h0].
    destruct (IH st0 h0 eq_refl) as (Hpend & Hhit & _).
    cbn in H. unfold scan_step in H. cbn [fst snd] in H.
    injection H as <- <-.
    assert (Hst : forall r, In r (step pat st0 c) ->
                            exists a p, d ++ [c] = a ++ p /\ pat = p ++ r /\ p <> []).
    { intros r Hr. unfold step in Hr. apply in_flat_map in Hr as (r0 & Hr0 & Hr).
      apply advance_in in Hr. subst r0. destruct Hr0 as [-> | Hr0].
      - exists d, [c]. repeat split. discriminate.
      - destruct (Hpend _ Hr0) as (a & p & -> & -> & Hp).
        exists a, (p ++ [c]). repeat split.
        + now rewrite app_assoc.
        + now rewrite <- app_assoc.
        + intros E. now apply app_eq_nil in E as [_ E]. }
    split; [exact Hst | split].
    + intros Hh. apply orb_true_iff in Hh as [Hh | Hh].
      * apply occurs_app_l. now apply Hhit.
      * apply found_nil_in in Hh. destruct (Hst _ Hh) as (a & p & -> & -> & _).
        rewrite app_nil_r. exists a, []. now rewrite app_nil_r.
    + intros ->. apply orb_true_r.
Qed.

Lemma in_suffixes (q r : str) : r <> [] -> In r (suffixes (q ++ r)).
Proof.
  intros Hr. induction q as [|x q IH]; cbn.
  - destruct r; [congruence | now left].
  - now right.
Qed.

(** A text that does not hold [pat] leaves only beginnings of [pat] open. *)
Lemma pass_text (pat : str) (s : str) :
  occursb pat s = false -> pass pat [] s (proper_suffixes pat).
Proof.
  intros Hfree st Hst. assert (st = []) as ->.
  { destruct st as [|r st]; [reflexivity |]. destruct (Hst r (or_introl eq_refl)). }
  destruct (scan pat ([], false) s) as [st' hit] eqn:E.
  destruct (@scan_sound pat s st' hit E) as (Hpend & Hhit & Hfound).
  assert (hit = false) as ->.
  { destruct hit; [| reflexivity]. pose proof (Hhit eq_refl) as Ho.
    apply occursb_spec in Ho. congruence. }
  exists st'. split; [reflexivity |].
  intros r Hr. destruct (Hpend r Hr) as (a & p & _ & -> & Hp).
  assert (Hrne : r <> []).
  { intros ->. apply found_nil_in in Hr. apply Hfound in Hr. discriminate. }
  unfold proper_suffixes. destruct p as [|x p]; [congruence |].
  cbn [tl app]. now apply in_suffixes.
Qed.

(** *** The template, piece by piece *)

Lemma lacks_false (pat s : str) : lacks pat s = true -> occursb pat s = false.
Proof. unfold lacks. now rewrite negb_true_iff. Qed.

Lemma lacks_list_in (pat : str) (l : list str) (s : str) :
  lacks_list pat l = true -> In s l -> occursb pat s = false.
Proof.
  unfold lacks_list. rewrite forallb_forall. intros H Hs. now apply lacks_false, H.
Qed.

Lemma strip_occurs (s : str) : occurs (strip s) s.
Proof.
  destruct (lstrip_is_suffix s) as [p Hp].
  destruct (strip_is_prefix s) as [q Hq].
  exists p, q. now rewrite <- Hq.
Qed.

Lemma occurs_trans (x y z : str) : occurs x y -> occurs y z -> occurs x z.
Proof.
  intros (a & b & ->) (c & d & ->). exists (c ++ a), (b ++ d).
  now rewrite <- !app_assoc.
Qed.

Lemma occursb_strip (pat s : str) :
  occursb pat s = false -> occursb pat (strip s) = false.
Proof.
  intros H. destruct (occursb pat (strip s)) eqn:E; [| reflexivity].
  apply occursb_spec in E. pose proof (occurs_trans E (strip_occurs s)) as Ho.
  apply occursb_spec in Ho. congruence.
Qed.

Ltac is_literal p :=
  lazymatch p with
  | u _ => idtac
  | nl => idtac
  | em_dash => idtac
  | bullet => idtac
  end.

(** One piece of a chain: a literal is searched from the beginnings that may
    be open before it; a text of the profile, or a part already dealt with,
    is taken from the context. *)
Ltac pass_step :=
  lazymatch goal with
  | |- pass ?pat ?S (?p ++ ?rest) _ =>
      first
        [ is_literal p;
          let r := eval vm_compute in (scan pat (S, false) p) in
          lazymatch r with
          | (?S1, false) =>
              apply (@pass_app pat S p rest S1);
              [ apply pass_literal; vm_compute; reflexivity | ]
          end
        | eapply pass_app;
          [ solve [ eassumption | apply pass_text; assumption ] | ] ]
  end.

Ltac pass_last :=
  first
    [ apply pass_nil
    | eapply pass_weaken; [apply pass_nil | apply incl_nil_l]
    | apply pass_literal; vm_compute; reflexivity
    | eapply pass_weaken; [apply pass_literal; vm_compute; reflexivity | apply incl_nil_l]
    | eassumption
    | apply pass_text; assumption ].

Ltac pass_chain := cbn [concat]; repeat pass_step; pass_last.

Ltac each_title H :=
  unfold optional_titles in H; cbn [In] in H;
  destruct H as [H | [H | [H | [H | []]]]]; subst.

Lemma pass_bullet_list (title : str) (items : option (list str)) :
  In title optional_titles -> lacks_opt_list (heading title) items = true ->
  pass (heading title) [] (bullet_list items) [].
Proof.
  intros Ht Hp. unfold bullet_list.
  destruct (negb (truthy_opt items)); [apply pass_nil |].
  assert (Hlis : pass (heading title) []
                   (join (map (fun p => u "<li>" ++ p ++ u "</li>")
                              (filter (fun p => truthy p)
                                      match items with Some l => l | None => [] end)))
                   []).
  { apply pass_concat_map. intros p Hin. apply filter_In in Hin as [Hin _].
    assert (Hpp : occursb (heading title) p = false).
    { destruct items as [l|]; [| destruct Hin]. exact (lacks_list_in _ _ _ Hp Hin). }
    each_title Ht; pass_chain. }
  each_title Ht; pass_chain.
Qed.

Lemma pass_exp_item (title : str) (e : CVExperience) :
  In title optional_titles -> lacks_experience (heading title) e = true ->
  pass (heading title) [] (exp_item e) [].
Proof.
  intros Ht Hp. unfold lacks_experience in Hp.
  rewrite !andb_true_iff in Hp. destruct Hp as [[[Hc Hr] Hd] Ha].
  apply lacks_false in Hc, Hr, Hd.
  pose proof (@pass_bullet_list title (Some (achievements e)) Ht Ha) as Hb.
  unfold exp_item. each_title Ht; pass_chain.
Qed.

Lemma pass_edu_item (title : str) (ed : CVEducation) :
  In title optional_titles -> lacks_education (heading title) ed = true ->
  pass (heading title) [] (edu_item ed) [].
Proof.
  intros Ht Hp. unfold lacks_education in Hp.
  rewrite !andb_true_iff in Hp. destruct Hp as [[Hd Hi] Hy].
  apply lacks_false in Hd, Hi, Hy.
  unfold edu_item. each_title Ht; pass_chain.
Qed.

Lemma pass_linkedin_text (title : str) (P : CVProfile) :
  In title optional_titles -> lacks_opt (heading title) (linkedin P) = true ->
  pass (heading title) (proper_suffixes (heading title)) (linkedin_text P)
       (proper_suffixes (heading title)).
Proof.
  intros Ht Hp. unfold linkedin_text.
  destruct (linkedin P) as [s|]; cbn [truthy_opt]; [| apply pass_nil].
  destruct (truthy s); [| apply pass_nil].
  cbn [lacks_opt] in Hp. apply lacks_false in Hp. each_title Ht; pass_chain.
Qed.

Lemma pass_summary_text (title : str) (P : CVProfile) :
  In title optional_titles ->
  lacks_opt (heading title) (summary P) = true ->
  lacks (heading title) (job_title_target P) = true ->
  pass (heading title) [] (summary_text P) (proper_suffixes (heading title)).
Proof.
  intros Ht Hs Hj. apply lacks_false in Hj. unfold summary_text.
  destruct (summary P) as [s|]; cbn [truthy_opt lacks_opt] in *.
  - destruct (truthy s); [now apply pass_text, lacks_false |].
    each_title Ht; pass_chain.
  - each_title Ht; pass_chain.
Qed.

Lemma pass_skills (title : str) (skills : list str) :
  In title optional_titles -> lacks_list (heading title) skills = true ->
  pass (heading title) []
       (join (map (fun s => u "<span class='tag'>" ++ s ++ u "</span>")
                  (skills_to_keywords skills)))
       [].
Proof.
  intros Ht Hp. apply pass_concat_map. intros k Hk.
  apply skills_to_keywords_nonempty_sources in Hk as (s & Hs & _ & ->).
  pose proof (occursb_strip _ _ (lacks_list_in _ _ _ Hp Hs)) as Hk.
  each_title Ht; pass_chain.
Qed.

Lemma pass_optional_section (title other : str) (x_html : str) :
  In title optional_titles -> In other optional_titles -> title <> other ->
  pass (heading title) [] x_html [] ->
  pass (heading title) [] (optional_section other x_html) [].
Proof.
  intros Ht Ho Hne Hx. unfold optional_section.
  destruct (truthy x_html); [| apply pass_nil].
  each_title Ht; each_title Ho; try congruence; pass_chain.
Qed.

Lemma optional_section_nothing (title : str) : optional_section title [] = [].
Proof. reflexivity. Qed.

(** The markup of a profile none of whose texts holds the heading of an
    optional section does not hold it either, once the collection of that
    section is missing or empty. *)
Lemma render_lacks_heading (P : CVProfile) (title : str) (coll : option (list str)) :
  In (title, coll) (optional_collections P) ->
  coll = None \/ coll = Some [] ->
  lacks_profile (heading title) P = true ->
  exists S', pass (heading title) [] (render_cv_html P) S'.
Proof.
  intros Hin Hnone Hp.
  apply bullet_list_nothing in Hnone.
  unfold lacks_profile in Hp. rewrite !andb_true_iff in Hp.
  destruct Hp as [[[[[[[[[[[[Hn He] Hph] Hl] Hs] Hj] Hsk] Hex] Hed] Hc] Hpr] Hla] Hi].
  assert (Ht : In title optional_titles).
  { unfold optional_collections in Hin. unfold optional_titles. cbn [In] in *.
    destruct Hin as [H | [H | [H | [H | []]]]]; injection H as <- _; tauto. }
  pose proof (@pass_linkedin_text title P Ht Hl) as Klinkedin.
  pose proof (@pass_summary_text title P Ht Hs Hj) as Ksummary.
  pose proof (@pass_skills title (skills P) Ht Hsk) as Kskills.
  assert (Kexp : pass (heading title) [] (concat (map exp_item (experience P))) []).
  { apply pass_concat_map. intros e Hin'. apply pass_exp_item; trivial.
    rewrite forallb_forall in Hex. auto. }
  assert (Kedu : pass (heading title) [] (concat (map edu_item (education P))) []).
  { apply pass_concat_map. intros ed Hin'. apply pass_edu_item; trivial.
    rewrite forallb_forall in Hed. auto. }
  pose proof (@pass_bullet_list title (certifications P) Ht Hc) as Bc.
  pose proof (@pass_bullet_list title (projects P) Ht Hpr) as Bp.
  pose proof (@pass_bullet_list title (languages P) Ht Hla) as Bl.
  pose proof (@pass_bullet_list title (interests P) Ht Hi) as Bi.
  assert (Hsections :
    pass (heading title) [] (optional_section (u "Certifications") (bullet_list (certifications P))) []
    /\ pass (heading title) [] (optional_section (u "Projects / Achievements") (bullet_list (projects P))) []
    /\ pass (heading title) [] (optional_section (u "Languages") (bullet_list (languages P))) []
    /\ pass (heading title) [] (optional_section (u "Interests") (bullet_list (interests P))) []).
  { unfold optional_collections in Hin. cbn [In] in Hin.
    destruct Hin as [H | [H | [H | [H | []]]]]; injection H as <- <-;
      rewrite ?Hnone, ?optional_section_nothing;
      repeat split;
      first [ apply pass_nil
            | apply pass_optional_section; trivial;
              [ unfold optional_titles; cbn [In]; tauto | discriminate ] ]. }
  destruct Hsections as (Kc & Kp & Kl & Ki).
  clear Hin Hnone Bc Bp Bl Bi.
  apply lacks_false in Hn, He, Hph, Hj.
  unfold render_cv_html. rewrite !fold_left_append. cbn [app].
  each_title Ht; eexists; pass_chain.
Qed.

(** ** Optional sections *)

Lemma suffix_of_whole (x : str) : suffix_of x x.
Proof. now exists []. Qed.

Lemma suffix_of_skip (x a d : str) : suffix_of x d -> suffix_of x (a ++ d).
Proof. intros [b ->]. exists (a ++ b). now rewrite app_assoc. Qed.

(** C5 (counterexample). A profile without certifications whose name spells
    the heading of the certifications section: the section is left out, and
    the markup holds the heading all the same, since the name is spliced in
    as it is. *)
Lemma C5_counterexample :
  In (u "Certifications", None) (optional_collections heading_for_a_name)
  /\ certifications heading_for_a_name = None
  /\ occurs (u "<h2>Certifications</h2>") (render_cv_html heading_for_a_name).
Proof.
  split; [now left | split; [reflexivity |]].
  apply occursb_spec. vm_compute. reflexivity.
Qed.

(** C5 (amended). For each of certifications, projects, languages and
    interests: when the collection is null or the empty sequence,
    [bullet_list] gives the empty string and the section built on it is the
    empty string, heading and list alike.  The markup ends with the four
    section slots, each on a line of its own, before the closing tags, so
    nothing of the section is in it; and provided no text of the profile
    holds the heading by itself (the renderer does not escape what it
    splices in), the heading of the omitted section occurs nowhere in the
    markup. *)
Theorem C5_empty_collection_section_omitted
        (P : CVProfile) (title : str) (coll : option (list str)) :
  In (title, coll) (optional_collections P) ->
  coll = None \/ coll = Some [] ->
  bullet_list coll = []
  /\ optional_section title (bullet_list coll) = []
  /\ suffix_of
       (concat (map (fun tc => u "  " ++ optional_section (fst tc) (bullet_list (snd tc)) ++ nl)
                    (optional_collections P))
        ++ nl ++ u "</body>" ++ nl ++ u "</html>" ++ nl)
       (render_cv_html P)
  /\ (lacks_profile (u "<h2>" ++ title ++ u "</h2>") P = true ->
      ~ occurs (u "<h2>" ++ title ++ u "</h2>") (render_cv_html P)).
Proof.
  intros Hin Hnone.
  pose proof (bullet_list_nothing Hnone) as Hb.
  split; [exact Hb | split; [now rewrite Hb | split]].
  - unfold optional_collections, render_cv_html.
    cbn [map concat fst snd]. rewrite <- !app_assoc, !app_nil_r.
    repeat lazymatch goal with
           | |- suffix_of _ (u "  " ++ optional_section _ _ ++ _) => fail
           | |- suffix_of _ (_ ++ _) => apply suffix_of_skip
           end.
    apply suffix_of_whole.
  - intros Hp.
    destruct (@render_lacks_heading P title coll Hin Hnone Hp) as [S' HS].
    apply (@pass_no_occurrence (heading title) (render_cv_html P) S'); trivial.
    discriminate.
Qed.

Lemma C5_empty_collection_witness :
  optional_section (u "Certifications") (bullet_list (certifications jane_interests)) = []
  /\ ~ occurs (u "<h2>Certifications</h2>") (render_cv_html jane_interests)
  /\ optional_section (u "Projects / Achievements") (bullet_list (projects jane_interests)) = []
  /\ ~ occurs (u "<h2>Projects / Achievements</h2>") (render_cv_html jane_interests)
  /\ occurs (u "<h2>Interests</h2>") (render_cv_html jane_interests).
Proof.
  pose proof (@C5_empty_collection_section_omitted
                jane_interests (u "Certifications") None
                (or_introl eq_refl) (or_introl eq_refl)) as (_ & Hc & _ & Hc').
  pose proof (@C5_empty_collection_section_omitted
                jane_interests (u "Projects / Achievements") (Some [])
                (or_intror (or_introl eq_refl)) (or_intror eq_refl))
    as (_ & Hp & _ & Hp').
  split; [exact Hc | split; [exact (Hc' eq_refl) |]].
  split; [exact Hp | split; [exact (Hp' eq_refl) |]].
  apply occursb_spec. vm_compute. reflexivity.
Defined.

(** ** Validation *)

Lemma errors_of_vap {A B} (f : validated (A -> B)) (x : validated A) :
  errors_of (f <*> x) = errors_of f ++ errors_of x.
Proof.
  destruct f, x; simpl; trivial. now rewrite app_nil_r.
Qed.

Lemma says_why_vap {A B} (f : validated (A -> B)) (x : validated A) :
  says_why f -> says_why x -> says_why (f <*> x).
Proof.
  destruct f as [e1|g], x as [e2|a]; simpl; trivial.
  intros H1 _ H. apply app_eq_nil in H as [H _]. contradiction.
Qed.

Lemma located_under_vap {A B} l (f : validated (A -> B)) (x : validated A) :
  located_under l f -> located_under l x -> located_under l (f <*> x).
Proof.
  unfold located_under. rewrite errors_of_vap. intros Hf Hx e He.
  apply in_app_or in He as [He | He]; auto.
Qed.

Lemma located_under_pure {A} l (a : A) : located_under l (@inr (list error) A a).
Proof. intros e []. Qed.

Lemma located_under_weaken {A} l k (x : validated A) :
  located_under (l ++ k) x -> located_under l x.
Proof.
  intros H e He. destruct (H e He) as [rest Hr].
  exists (k ++ rest). now rewrite app_assoc.
Qed.

Lemma located_under_one {A} l kd :
  located_under l (@inl (list error) A [{| loc := l; kind := kd |}]).
Proof.
  intros e [<- | []]. exists []. simpl. now rewrite app_nil_r.
Qed.

Section ValidationFacts.

Variable str_value : json -> option str.
Variable email_value : str -> option str.

Lemma sound_v_str : sound (v_str str_value).
Proof.
  intros l v. unfold v_str. destruct (str_value v).
  - split; [exact I | apply located_under_pure].
  - split; [discriminate | apply located_under_one].
Qed.

Lemma sound_v_email : sound (v_email str_value email_value).
Proof.
  intros l v. unfold v_email. destruct (str_value v) as [s|].
  - destruct (email_value s).
    + split; [exact I | apply located_under_pure].
    + split; [discriminate | apply located_under_one].
  - split; [discriminate | apply located_under_one].
Qed.

Lemma sound_v_optional {A} (X : validator A) : sound X -> sound (v_optional X).
Proof.
  intros HX l v. unfold v_optional.
  destruct v; try (split; [exact I | apply located_under_pure]);
    match goal with
    | |- context [X l ?w] =>
        destruct (HX l w) as [Hw Hl]; destruct (X l w);
        (split; [exact Hw | exact Hl])
    end.
Qed.

Lemma sound_v_items {A} (X : validator A) :
  sound X ->
  forall items l i,
    says_why (v_items X l i items) /\ located_under l (v_items X l i items).
Proof.
  intros HX. induction items as [|x rest IH]; intros l i; cbn [v_items].
  - split; [exact I | apply located_under_pure].
  - destruct (HX (l ++ [Index i]) x) as [Hw Hl].
    destruct (IH l (S i)) as [Hw' Hl'].
    split.
    + apply says_why_vap; [apply says_why_vap; [exact I | exact Hw] | exact Hw'].
    + apply located_under_vap; [apply located_under_vap |]; trivial.
      * apply located_under_pure.
      * now apply located_under_weaken with (k := [Index i]).
Qed.

Lemma sound_v_list {A} (X : validator A) : sound X -> sound (v_list X).
Proof.
  intros HX l v. unfold v_list.
  destruct v; try (split; [discriminate | apply located_under_one]).
  now apply sound_v_items.
Qed.

Lemma required_sound {A} (X : validator A) l m name :
  sound X ->
  says_why (required l m name X)
  /\ located_under (l ++ [Key name]) (required l m name X).
Proof.
  intros HX. unfold required. destruct (get name m) as [v|].
  - apply HX.
  - split; [discriminate | apply located_under_one].
Qed.

Lemma defaulted_sound {A} (X : validator A) l m name (d : A) :
  sound X ->
  says_why (defaulted l m name d X)
  /\ located_under (l ++ [Key name]) (defaulted l m name d X).
Proof.
  intros HX. unfold defaulted. destruct (get name m) as [v|].
  - apply HX.
  - split; [exact I | apply located_under_pure].
Qed.

Ltac fields_sound :=
  repeat first
    [ apply sound_v_str | apply sound_v_email
    | apply sound_v_optional | apply sound_v_list ].

Ltac record_sound l :=
  split;
  [ repeat (apply says_why_vap; [| first [ apply required_sound | apply defaulted_sound ]; fields_sound ]);
    exact I
  | repeat (apply located_under_vap;
            [| eapply located_under_weaken;
               first [ apply required_sound | apply defaulted_sound ]; fields_sound ]);
    apply located_under_pure ].

Lemma sound_v_CVExperience : sound (v_CVExperience str_value).
Proof.
  intros l v. unfold v_CVExperience.
  destruct v; try (split; [discriminate | apply located_under_one]).
  record_sound l.
Qed.

Lemma sound_v_CVEducation : sound (v_CVEducation str_value).
Proof.
  intros l v. unfold v_CVEducation.
  destruct v; try (split; [discriminate | apply located_under_one]).
  record_sound l.
Qed.

Lemma validate_errors (m : list (str * json)) :
  errors_of (validate_CVProfile str_value email_value (JObject m))
  = concat (map snd (field_checks str_value email_value m)).
Proof.
  unfold validate_CVProfile, field_checks.
  rewrite !errors_of_vap. cbn [errors_of map concat snd app].
  rewrite <- !app_assoc, ?app_nil_r. reflexivity.
Qed.

Lemma validate_says_why (body : json) :
  says_why (validate_CVProfile str_value email_value body).
Proof.
  unfold validate_CVProfile.
  destruct body; try discriminate.
  repeat (apply says_why_vap;
          [| first [ apply required_sound | apply defaulted_sound ];
             repeat first
               [ apply sound_v_str | apply sound_v_email
               | apply sound_v_CVExperience | apply sound_v_CVEducation
               | apply sound_v_optional | apply sound_v_list ] ]).
  exact I.
Qed.

Lemma required_names_field {A} (X : validator A) m name e :
  sound X -> In e (errors_of (required [] m name X)) ->
  hd_error (loc e) = Some (Key name).
Proof.
  intros HX He.
  destruct (proj2 (required_sound [] m name HX) e He) as [rest ->].
  reflexivity.
Qed.

Lemma defaulted_names_field {A} (X : validator A) m name (d : A) e :
  sound X -> In e (errors_of (defaulted [] m name d X)) ->
  hd_error (loc e) = Some (Key name).
Proof.
  intros HX He.
  destruct (proj2 (defaulted_sound [] m name d HX) e He) as [rest ->].
  reflexivity.
Qed.

Lemma checks_located (m : list (str * json)) (name : str) (es : list error) :
  In (name, es) (field_checks str_value email_value m) ->
  forall e, In e es -> hd_error (loc e) = Some (Key name).
Proof.
  unfold field_checks. cbn [In].
  intros H e He.
  repeat destruct H as [H | H]; try contradiction;
    injection H as <- <-;
    first [ eapply required_names_field; [| exact He]
          | eapply defaulted_names_field; [| exact He] ];
    repeat first
      [ apply sound_v_str | apply sound_v_email
      | apply sound_v_CVExperience | apply sound_v_CVEducation
      | apply sound_v_optional | apply sound_v_list ].
Qed.

End ValidationFacts.



(** ** The database check *)

Lemma firstn_length_le {A} (n : nat) (l : list A) : length (firstn n l) <= n.
Proof. rewrite length_firstn. apply Nat.le_min_l. Qed.

(** X1. Whatever the database object is, the fields [database_url] and
    [database_name] of the answer of [test_database] tell only whether the
    environment variables [DATABASE_URL] and [DATABASE_NAME] are set to a
    non-empty value: what the database branch wrote there (the mark
    "Configured", the name of the database) is overwritten, and neither
    field is ever null. *)
Theorem X1_test_database_reports_environment_only
        (db : option Database) (getenv : str -> option str) :
  database_url (test_database db getenv)
  = Some (if truthy_opt (getenv (u "DATABASE_URL"))
          then check_mark ++ u " Set" else cross_mark ++ u " Not Set")
  /\ database_name (test_database db getenv)
     = Some (if truthy_opt (getenv (u "DATABASE_NAME"))
             then check_mark ++ u " Set" else cross_mark ++ u " Not Set")
  /\ forall db' : option Database,
       database_url (test_database db' getenv)
       = database_url (test_database db getenv)
       /\ database_name (test_database db' getenv)
          = database_name (test_database db getenv).
Proof.
  assert (H : forall d : option Database,
             database_url (test_database d getenv)
             = Some (if truthy_opt (getenv (u "DATABASE_URL"))
                     then check_mark ++ u " Set" else cross_mark ++ u " Not Set")
             /\ database_name (test_database d getenv)
                = Some (if truthy_opt (getenv (u "DATABASE_NAME"))
                        then check_mark ++ u " Set" else cross_mark ++ u " Not Set")).
  { intros d. unfold test_database.
    destruct (test_database_try d _) as [r [e|]]; split; reflexivity. }
  destruct (H db) as [Hu Hn].
  split; [exact Hu | split; [exact Hn |]].
  intros db'. destruct (H db') as [Hu' Hn']. now rewrite Hu, Hn, Hu', Hn'.
Qed.

(** X2. The answer lists at most ten collections: the first ten that
    [list_collection_names] returned, in its order, when there is a database
    object, its name can be read and the listing returns; none in every
    other case. *)
Theorem X2_test_database_lists_at_most_ten
        (db : option Database) (getenv : str -> option str) :
  length (collections (test_database db getenv)) <= 10
  /\ (forall d attr cs,
         db = Some d -> name d = Returned attr ->
         list_collection_names d = Returned cs ->
         collections (test_database db getenv) = firstn 10 cs)
  /\ (db = None -> collections (test_database db getenv) = [])
  /\ (forall d e,
         db = Some d ->
         name d = Raised e \/ list_collection_names d = Raised e ->
         collections (test_database db getenv) = []).
Proof.
  unfold test_database, test_database_try.
  destruct db as [d|]; [destruct (name d) as [attr|e0] eqn:En;
                        [destruct (list_collection_names d) as [cs|e1] eqn:El |] |];
    cbn [collections set_database set_database_url set_database_name
         set_connection_status set_collections].
  - split; [apply firstn_length_le |].
    split; [intros d' attr' cs' [= <-] Hn Hl; congruence |].
    split; [discriminate |].
    intros d' e' [= <-] [H | H]; congruence.
  - split; [apply Nat.le_0_l |].
    split; [intros d' attr' cs' [= <-] Hn Hl; congruence |].
    split; [discriminate | reflexivity].
  - split; [apply Nat.le_0_l |].
    split; [intros d' attr' cs' [= <-] Hn Hl; congruence |].
    split; [discriminate | reflexivity].
  - split; [apply Nat.le_0_l |].
    split; [discriminate |].
    split; [reflexivity | discriminate].
Qed.

(** X3. The answer says "Connected & Working" exactly when there is a
    database object, its name can be read and the listing of collections
    returns.  [connection_status] is "Connected" exactly when there is a
    database object whose name can be read, also when the listing then
    fails, and "Not Connected" otherwise.  Of the text of an exception at
    most fifty characters are shown, so the [database] field never exceeds
    seventy-five characters. *)
Theorem X3_test_database_status
        (db : option Database) (getenv : str -> option str) :
  let r := test_database db getenv in
  (database r = check_mark ++ u " Connected & Working"
   <-> exists d attr cs,
         db = Some d /\ name d = Returned attr
         /\ list_collection_names d = Returned cs)
  /\ (connection_status r = u "Connected"
      <-> exists d attr, db = Some d /\ name d = Returned attr)
  /\ (connection_status r = u "Connected"
      \/ connection_status r = u "Not Connected")
  /\ length (database r) <= 75
  /\ backend r = check_mark ++ u " Running".
Proof.
  unfold test_database, test_database_try.
  destruct db as [d|]; [destruct (name d) as [attr|e0] eqn:En;
                        [destruct (list_collection_names d) as [cs|e1] eqn:El |] |];
    cbn [database connection_status backend set_database set_database_url
         set_database_name set_connection_status set_collections].
  - split; [split; [intros _; now exists d, attr, cs | reflexivity] |].
    split; [split; [intros _; now exists d, attr | reflexivity] |].
    split; [now left |]. split; [vm_compute; lia | reflexivity].
  - split; [split; [discriminate | intros (d' & a' & c' & [= <-] & _ & H); congruence] |].
    split; [split; [intros _; now exists d, attr | reflexivity] |].
    split; [now left |]. split; [| reflexivity].
    rewrite !length_app.
    pose proof (firstn_length_le 50 (str_of_exception e1)).
    change (length warning_sign) with 2.
    change (length (u "  Connected but Error: ")) with 23. lia.
  - split; [split; [discriminate | intros (d' & a' & c' & [= <-] & H & _); congruence] |].
    split; [split; [discriminate | intros (d' & a' & [= <-] & H); congruence] |].
    split; [now right |]. split; [| reflexivity].
    rewrite !length_app.
    pose proof (firstn_length_le 50 (str_of_exception e0)).
    change (length cross_mark) with 1.
    change (length (u " Error: ")) with 8. lia.
  - split; [split; [discriminate | intros (d' & a' & c' & H & _); discriminate] |].
    split; [split; [discriminate | intros (d' & a' & H & _); discriminate] |].
    split; [now right |]. split; [vm_compute; lia | reflexivity].
Qed.
(** ** Base64 *)

Lemma in_below (n : nat) (x : N) : (x < N.of_nat n)%N -> In x (below n).
Proof.
  intros H. unfold below. apply in_map_iff. exists (N.to_nat x).
  split; [apply N2Nat.id |]. apply in_seq. lia.
Qed.

Lemma check_below (n : nat) (P : N -> bool) :
  forallb P (below n) = true -> forall x, (x < N.of_nat n)%N -> P x = true.
Proof.
  intros H x Hx. rewrite forallb_forall in H. now apply H, in_below.
Qed.

Lemma check_below2 (n m : nat) (P : N -> N -> bool) :
  forallb (fun x => forallb (P x) (below m)) (below n) = true ->
  forall x y, (x < N.of_nat n)%N -> (y < N.of_nat m)%N -> P x y = true.
Proof.
  intros H x y Hx Hy.
  pose proof (@check_below n _ H x Hx) as H'. cbn beta in H'.
  exact (@check_below m _ H' y Hy).
Qed.

Lemma b64_index_digit (i : N) :
  (i < 64)%N ->
  b64_index (b64_digit i) = Some i /\ (b64_digit i =? pad)%N = false
  /\ In (b64_digit i) b64_alphabet.
Proof.
  intros Hi.
  assert (H : (match b64_index (b64_digit i) with
               | Some j => (j =? i)%N
               | None => false
               end && negb (b64_digit i =? pad)%N
               && existsb (N.eqb (b64_digit i)) b64_alphabet) = true).
  { revert i Hi. apply (@check_below 64). vm_compute. reflexivity. }
  rewrite !andb_true_iff, negb_true_iff in H. destruct H as [[H1 H2] H3].
  destruct (b64_index (b64_digit i)) as [j|]; [| discriminate].
  apply N.eqb_eq in H1. subst j. repeat split; trivial.
  apply existsb_exists in H3 as (c & Hc & E). apply N.eqb_eq in E. now subst.
Qed.

(** The four digits of a group of three bytes, read back. *)
Lemma b64_first_digit (b0 : N) :
  (b0 < 256)%N ->
  (N.shiftr b0 2 < 64)%N
  /\ (N.shiftl (N.land b0 3) 4 < 64)%N
  /\ N.lor (N.shiftl (N.shiftr b0 2) 2) (N.shiftr (N.shiftl (N.land b0 3) 4) 4) = b0
  /\ (N.land b0 63 < 64)%N
  /\ N.lor (N.shiftl (N.shiftr b0 6) 6) (N.land b0 63) = b0
  /\ (N.shiftl (N.land b0 15) 2 < 64)%N
  /\ N.lor (N.shiftl (N.shiftr b0 4) 4) (N.shiftr (N.shiftl (N.land b0 15) 2) 2) = b0.
Proof.
  intros H.
  assert (E : ((N.shiftr b0 2 <? 64) && (N.shiftl (N.land b0 3) 4 <? 64)
               && (N.lor (N.shiftl (N.shiftr b0 2) 2)
                         (N.shiftr (N.shiftl (N.land b0 3) 4) 4) =? b0)
               && (N.land b0 63 <? 64)
               && (N.lor (N.shiftl (N.shiftr b0 6) 6) (N.land b0 63) =? b0)
               && (N.shiftl (N.land b0 15) 2 <? 64)
               && (N.lor (N.shiftl (N.shiftr b0 4) 4)
                         (N.shiftr (N.shiftl (N.land b0 15) 2) 2) =? b0))%N = true).
  { revert b0 H. apply (@check_below 256). vm_compute. reflexivity. }
  rewrite !andb_true_iff, !N.ltb_lt, !N.eqb_eq in E. tauto.
Qed.

Lemma b64_middle_digit (hi lo : N) :
  (hi < 256)%N -> (lo < 256)%N ->
  (N.lor (N.shiftl (N.land hi 3) 4) (N.shiftr lo 4) < 64)%N
  /\ N.lor (N.shiftl (N.shiftr hi 2) 2)
           (N.shiftr (N.lor (N.shiftl (N.land hi 3) 4) (N.shiftr lo 4)) 4) = hi
  /\ N.land (N.lor (N.shiftl (N.land hi 3) 4) (N.shiftr lo 4)) 15 = N.shiftr lo 4
  /\ (N.lor (N.shiftl (N.land hi 15) 2) (N.shiftr lo 6) < 64)%N
  /\ N.lor (N.shiftl (N.shiftr hi 4) 4)
           (N.shiftr (N.lor (N.shiftl (N.land hi 15) 2) (N.shiftr lo 6)) 2) = hi
  /\ N.land (N.lor (N.shiftl (N.land hi 15) 2) (N.shiftr lo 6)) 3 = N.shiftr lo 6
  /\ N.land (N.shiftl (N.land hi 3) 4) 15 = 0%N.
Proof.
  intros Hh Hl.
  assert (E : ((N.lor (N.shiftl (N.land hi 3) 4) (N.shiftr lo 4) <? 64)
               && (N.lor (N.shiftl (N.shiftr hi 2) 2)
                         (N.shiftr (N.lor (N.shiftl (N.land hi 3) 4) (N.shiftr lo 4)) 4) =? hi)
               && (N.land (N.lor (N.shiftl (N.land hi 3) 4) (N.shiftr lo 4)) 15
                   =? N.shiftr lo 4)
               && (N.lor (N.shiftl (N.land hi 15) 2) (N.shiftr lo 6) <? 64)
               && (N.lor (N.shiftl (N.shiftr hi 4) 4)
                         (N.shiftr (N.lor (N.shiftl (N.land hi 15) 2) (N.shiftr lo 6)) 2) =? hi)
               && (N.land (N.lor (N.shiftl (N.land hi 15) 2) (N.shiftr lo 6)) 3
                   =? N.shiftr lo 6)
               && (N.land (N.shiftl (N.land hi 3) 4) 15 =? 0))%N = true).
  { revert hi lo Hh Hl. apply (@check_below2 256 256). vm_compute. reflexivity. }
  rewrite !andb_true_iff, !N.ltb_lt, !N.eqb_eq in E. tauto.
Qed.

Lemma b64decode_b64encode (data : list N) :
  forallb is_byte data = true -> b64decode (b64encode data) = Some data.
Proof.
  remember (length data) as n eqn:Hn. revert data Hn.
  induction n as [n IH] using lt_wf_ind. intros data Hn Hb.
  destruct data as [|b0 [|b1 [|b2 rest]]].
  - reflexivity.
  - cbn [forallb] in Hb. rewrite !andb_true_iff in Hb. destruct Hb as [H0 _].
    apply N.ltb_lt in H0.
    destruct (b64_first_digit H0) as (A1 & A2 & A3 & _).
    cbn [b64encode b64decode].
    rewrite (proj1 (b64_index_digit A1)), (proj1 (b64_index_digit A2)).
    rewrite N.eqb_refl. cbn [truthy negb andb]. now rewrite A3.
  - cbn [forallb] in Hb. rewrite !andb_true_iff in Hb. destruct Hb as (H0 & H1 & _).
    apply N.ltb_lt in H0, H1.
    destruct (b64_first_digit H0) as (A1 & _).
    destruct (b64_first_digit H1) as (_ & _ & _ & _ & _ & B6 & B7).
    destruct (b64_middle_digit H0 H1) as (M1 & M2 & M3 & _).
    cbn [b64encode b64decode].
    rewrite (proj1 (b64_index_digit A1)), (proj1 (b64_index_digit M1)).
    destruct (b64_index_digit B6) as (I3 & P3 & _). rewrite P3, I3.
    rewrite N.eqb_refl. cbn [truthy negb]. now rewrite M2, M3, B7.
  - cbn [forallb] in Hb. rewrite !andb_true_iff in Hb.
    destruct Hb as (H0 & H1 & H2 & Hrest).
    apply N.ltb_lt in H0, H1, H2.
    destruct (b64_first_digit H0) as (A1 & _).
    destruct (b64_first_digit H2) as (_ & _ & _ & C4 & C5 & _).
    destruct (b64_middle_digit H0 H1) as (M1 & M2 & M3 & _).
    destruct (b64_middle_digit H1 H2) as (_ & _ & _ & N4 & N5 & N6 & _).
    cbn [b64encode b64decode].
    rewrite (proj1 (b64_index_digit A1)), (proj1 (b64_index_digit M1)).
    destruct (b64_index_digit N4) as (I3 & P3 & _). rewrite P3, I3.
    destruct (b64_index_digit C4) as (I4 & P4 & _). rewrite P4, I4.
    rewrite (IH (length rest)) with (data := rest); trivial.
    + now rewrite M2, M3, N5, N6, C5.
    + subst n. cbn [length]. lia.
Qed.

Lemma b64encode_shape (data : list N) :
  forallb is_byte data = true ->
  Forall (fun c => In c b64_alphabet \/ c = pad) (b64encode data)
  /\ length (b64encode data) = 4 * ((length data + 2) / 3).
Proof.
  remember (length data) as n eqn:Hn. revert data Hn.
  induction n as [n IH] using lt_wf_ind. intros data Hn Hb.
  assert (digit : forall i, (i < 64)%N ->
                            In (b64_digit i) b64_alphabet \/ b64_digit i = pad).
  { intros i Hi. left. now apply b64_index_digit. }
  assert (padding : In pad b64_alphabet \/ pad = pad) by now right.
  destruct data as [|b0 [|b1 [|b2 rest]]]; subst n.
  - split; [apply Forall_nil | reflexivity].
  - cbn [forallb] in Hb. rewrite !andb_true_iff in Hb. destruct Hb as [H0 _].
    apply N.ltb_lt in H0.
    destruct (b64_first_digit H0) as (A1 & A2 & _).
    split; [| reflexivity]. cbn [b64encode].
    apply Forall_cons; [now apply digit |].
    apply Forall_cons; [now apply digit |].
    apply Forall_cons; [exact padding |].
    apply Forall_cons; [exact padding | apply Forall_nil].
  - cbn [forallb] in Hb. rewrite !andb_true_iff in Hb. destruct Hb as (H0 & H1 & _).
    apply N.ltb_lt in H0, H1.
    destruct (b64_first_digit H0) as (A1 & _).
    destruct (b64_first_digit H1) as (_ & _ & _ & _ & _ & B6 & _).
    destruct (b64_middle_digit H0 H1) as (M1 & _).
    split; [| reflexivity]. cbn [b64encode].
    apply Forall_cons; [now apply digit |].
    apply Forall_cons; [now apply digit |].
    apply Forall_cons; [now apply digit |].
    apply Forall_cons; [exact padding | apply Forall_nil].
  - cbn [forallb] in Hb. rewrite !andb_true_iff in Hb.
    destruct Hb as (H0 & H1 & H2 & Hrest).
    apply N.ltb_lt in H0, H1, H2.
    destruct (b64_first_digit H0) as (A1 & _).
    destruct (b64_first_digit H2) as (_ & _ & _ & C4 & _).
    destruct (b64_middle_digit H0 H1) as (M1 & _).
    destruct (b64_middle_digit H1 H2) as (_ & _ & _ & N4 & _).
    destruct (IH (length rest)) with (data := rest) as [IHa IHl]; trivial.
    { cbn [length]. lia. }
    cbn [b64encode]. split.
    + apply Forall_cons; [now apply digit |].
      apply Forall_cons; [now apply digit |].
      apply Forall_cons; [now apply digit |].
      apply Forall_cons; [now apply digit | exact IHa].
    + cbn [length]. rewrite IHl.
      replace (S (S (S (length rest))) + 2) with ((length rest + 2) + 1 * 3) by lia.
      rewrite Nat.div_add by discriminate. lia.
Qed.

(** X4. Whenever the converter returns bytes, [generate_cv] returns and
    [pdf_base64] is their base64 text: decoding it gives the bytes back, it
    is made of the sixty-four characters of the alphabet and of the padding
    sign only, and it has four characters for every three bytes, the last
    group padded. *)
Theorem X4_pdf_base64_reads_back
        (DocId : Type) (create_document : str -> CVProfile -> outcome DocId)
        (pisa_CreatePDF : str -> outcome (list N))
        (P : CVProfile) (pdf_bytes : list N) :
  pisa_CreatePDF (render_cv_html P) = Returned pdf_bytes ->
  forallb is_byte pdf_bytes = true ->
  exists r,
    snd (run (generate_cv create_document pisa_CreatePDF P)) = Returned r
    /\ b64decode (pdf_base64 r) = Some pdf_bytes
    /\ Forall (fun c => In c b64_alphabet \/ c = pad) (pdf_base64 r)
    /\ length (pdf_base64 r) = 4 * ((length pdf_bytes + 2) / 3).
Proof.
  intros Hpdf Hbytes. rewrite generate_cv_run, Hpdf. cbn [snd].
  eexists. split; [reflexivity |]. cbn [pdf_base64].
  split; [now apply b64decode_b64encode |]. now apply b64encode_shape.
Qed.

Lemma X4_pdf_base64_witness :
  exists r,
    snd (run (generate_cv db_up pdf_stub jane)) = Returned r
    /\ b64decode (pdf_base64 r) = Some (u "%PDF-1.4")
    /\ Forall (fun c => In c b64_alphabet \/ c = pad) (pdf_base64 r)
    /\ length (pdf_base64 r) = 12.
Proof.
  exact (@X4_pdf_base64_reads_back str db_up pdf_stub jane (u "%PDF-1.4")
                                   eq_refl eq_refl).
Defined.

Lemma X2_test_database_witness :
  collections
    (test_database
       (Some {| name := Returned (Some (u "cv"));
                list_collection_names :=
                  Returned (map (fun n => u "col_" ++ [97 + n]%N) (below 12)) |})
       (fun _ => None))
  = map (fun n => u "col_" ++ [97 + n]%N) (below 10).
Proof.
  exact (proj1 (proj2 (X2_test_database_lists_at_most_ten
                         (Some {| name := Returned (Some (u "cv"));
                                  list_collection_names :=
                                    Returned (map (fun n => u "col_" ++ [97 + n]%N) (below 12)) |})
                         (fun _ => None)))
               _ _ _ eq_refl eq_refl eq_refl).
Defined.
